(** * Messenger data-access layer: [app/models/cassandra_models.py]

    A shallow embedding of [MessageModel] and [ConversationModel] together
    with the storage session they talk to, followed by the properties of
    conversation identity, message append, index fan-out and the read paths.

    The [async] methods make synchronous driver calls and never suspend, so
    each is a function of the world it runs in.  Calls to [logger] are left
    out: they touch neither the store nor the result. *)

From Stdlib Require Import ZArith List String Bool Lia.
Import ListNotations.
Open Scope Z_scope.

Set Implicit Arguments.

(** ** Python values *)

(** A Python [str] is a sequence of code points. *)
Definition str := list Z.

(** [s[:n]] for a non-negative literal [n]. *)
Definition slice_to (n : nat) (s : str) : str := firstn n s.

(** [uuid.UUID]: a 128-bit integer. *)
Definition UUID := Z.

(** A version-1 UUID as [cassandra.util.uuid_from_time] assembles it: the
    60-bit count of 100 ns intervals, the 14-bit clock sequence and the
    48-bit node. *)
Record TimeUUID := mkTimeUUID {
  tu_time : Z;
  tu_clock_seq : Z;
  tu_node : Z
}.

(** Modelled from the spec: the order of the [timeuuid] clustering column,
    which belongs to the storage engine.  The key is "a composite sortable
    key (timestamp + tie-breaker bits)": the timestamp decides, the clock
    sequence and the node break ties. *)
Definition timeuuid_ltb (x y : TimeUUID) : bool :=
  (tu_time x <? tu_time y)
  || ((tu_time x =? tu_time y)
      && ((tu_clock_seq x <? tu_clock_seq y)
          || ((tu_clock_seq x =? tu_clock_seq y) && (tu_node x <? tu_node y)))).

(** The value [datetime.utcfromtimestamp(num / den)]; the float division is
    kept symbolic. *)
Inductive datetime := UtcFromTimestamp (num den : Z).

(** The exceptions that occur in the module: the [ValueError] of the
    self-conversation guard, whatever the driver raises from
    [session.execute], and the [OverflowError] of a [datetime] that has no
    UTC value.  All derive from [Exception]. *)
Inductive exn :=
| ValueError (msg : string)
| DriverException
| OverflowError.

Inductive outcome (A : Type) :=
| Return (a : A)
| Raise (e : exn).
Arguments Return {A} a.
Arguments Raise {A} e.

(** ** The tables *)

Module ConversationByUsers.
Record row := mk {
  user_a_id : Z;
  user_b_id : Z;
  conversation_id : UUID
}.
End ConversationByUsers.

Module MessagesByConversation.
Record row := mk {
  conversation_id : UUID;
  message_time : TimeUUID;
  message_id : UUID;
  sender_id : Z;
  receiver_id : Z;
  content : str
}.
End MessagesByConversation.

Module ConversationsByUser.
Record row := mk {
  user_id : Z;
  last_message_time : TimeUUID;
  conversation_id : UUID;
  other_user_id : Z;
  last_message_sender_id : Z;
  last_message_content : str
}.
End ConversationsByUser.

Record Tables := mkTables {
  conversation_by_users : list ConversationByUsers.row;
  messages_by_conversation : list MessagesByConversation.row;
  conversations_by_user : list ConversationsByUser.row
}.

Definition timeuuid_eqb (x y : TimeUUID) : bool :=
  (tu_time x =? tu_time y) && (tu_clock_seq x =? tu_clock_seq y)
  && (tu_node x =? tu_node y).

(** Modelled from the spec: the primary keys of the three tables; the schema
    is not part of the module.  [conversation_by_users] is keyed by
    [(user_a_id, user_b_id)], [messages_by_conversation] by
    [(conversation_id, message_time)] and [conversations_by_user] holds one
    row per [(user_id, conversation_id)]. *)
Definition same_pair (x y : ConversationByUsers.row) : bool :=
  (ConversationByUsers.user_a_id x =? ConversationByUsers.user_a_id y)
  && (ConversationByUsers.user_b_id x =? ConversationByUsers.user_b_id y).

Definition same_message_key (x y : MessagesByConversation.row) : bool :=
  (MessagesByConversation.conversation_id x =? MessagesByConversation.conversation_id y)
  && timeuuid_eqb (MessagesByConversation.message_time x)
                  (MessagesByConversation.message_time y).

Definition same_index_key (x y : ConversationsByUser.row) : bool :=
  (ConversationsByUser.user_id x =? ConversationsByUser.user_id y)
  && (ConversationsByUser.conversation_id x =? ConversationsByUser.conversation_id y).

(** Modelled from the spec: CQL [INSERT] is an upsert on the primary key.
    The row written replaces every stored row with the same key. *)
Definition upsert {R : Type} (same_key : R -> R -> bool) (r : R) (t : list R) : list R :=
  r :: filter (fun x => negb (same_key x r)) t.

(** ** Statements and result sets *)

Inductive Statement :=
| SelectConversationId (user_a_id user_b_id : Z)
| InsertConversation (r : ConversationByUsers.row)
| InsertMessage (r : MessagesByConversation.row)
| InsertConversationByUser (r : ConversationsByUser.row)
| SelectMessages (conversation_id : UUID) (fetch_size : Z) (paging_state : option nat)
| SelectMessagesBefore (conversation_id : UUID) (before : TimeUUID)
                       (fetch_size : Z) (paging_state : option nat)
| SelectConversationsByUser (user_id : Z) (fetch_size : Z) (paging_state : option nat).

Module ResultSet.
Record t (R : Type) := mk {
  current_rows : list R;
  paging_state : option nat
}.

(** [ResultSet.one()]. *)
Definition one {R : Type} (rs : t R) : option R := hd_error (current_rows rs).
End ResultSet.

(** Modelled from the spec: paging of the storage session.  The continuation
    token is opaque to the callers; here it is the number of rows already
    handed out.  A page holds at most [fetch_size] rows and the token is null
    when no further rows exist.  A non-positive [fetch_size] turns paging
    off. *)
Definition page {R : Type} (fetch_size : Z) (state : option nat) (rows : list R)
  : ResultSet.t R :=
  let offset := match state with Some k => k | None => O end in
  let rest := skipn offset rows in
  if fetch_size <=? 0 then ResultSet.mk rest None
  else
    let n := Z.to_nat fetch_size in
    ResultSet.mk (firstn n rest)
                (if (n <? List.length rest)%nat then Some (offset + n)%nat else None).

Definition ResultOf (s : Statement) : Type :=
  match s with
  | SelectConversationId _ _ => ResultSet.t ConversationByUsers.row
  | InsertConversation _ => ResultSet.t unit
  | InsertMessage _ => ResultSet.t unit
  | InsertConversationByUser _ => ResultSet.t unit
  | SelectMessages _ _ _ => ResultSet.t MessagesByConversation.row
  | SelectMessagesBefore _ _ _ _ => ResultSet.t MessagesByConversation.row
  | SelectConversationsByUser _ _ _ => ResultSet.t ConversationsByUser.row
  end.

Definition no_rows : ResultSet.t unit := ResultSet.mk [] None.

(** What a statement does to the tables and what it returns, once the store
    has accepted it. *)
Definition run (s : Statement) : Tables -> ResultOf s * Tables :=
  match s as s0 return Tables -> ResultOf s0 * Tables with
  | SelectConversationId a b => fun t =>
      (ResultSet.mk
         (firstn 1 (filter (fun r => (ConversationByUsers.user_a_id r =? a)
                                     && (ConversationByUsers.user_b_id r =? b))
                           (conversation_by_users t)))
         None, t)
  | InsertConversation r => fun t =>
      (no_rows,
       mkTables (upsert same_pair r (conversation_by_users t))
                (messages_by_conversation t) (conversations_by_user t))
  | InsertMessage r => fun t =>
      (no_rows,
       mkTables (conversation_by_users t)
                (upsert same_message_key r (messages_by_conversation t))
                (conversations_by_user t))
  | InsertConversationByUser r => fun t =>
      (no_rows,
       mkTables (conversation_by_users t) (messages_by_conversation t)
                (upsert same_index_key r (conversations_by_user t)))
  | SelectMessages cid fetch_size state => fun t =>
      (page fetch_size state
            (filter (fun r => MessagesByConversation.conversation_id r =? cid)
                    (messages_by_conversation t)), t)
  | SelectMessagesBefore cid before fetch_size state => fun t =>
      (page fetch_size state
            (filter (fun r => (MessagesByConversation.conversation_id r =? cid)
                              && timeuuid_ltb (MessagesByConversation.message_time r) before)
                    (messages_by_conversation t)), t)
  | SelectConversationsByUser uid fetch_size state => fun t =>
      (page fetch_size state
            (filter (fun r => ConversationsByUser.user_id r =? uid)
                    (conversations_by_user t)), t)
  end.

(** ** The world the module runs in *)

(** The tables, the fate of the coming [session.execute] calls ([true]: the
    driver raises), the values the random source and the clock will hand out,
    and the statements given to [session.execute] so far, oldest first. *)
Record World := mkWorld {
  tables : Tables;
  faults : list bool;
  entropy : list Z;
  clock : list Z;
  trace : list Statement
}.

Definition M (A : Type) : Type := World -> outcome A * World.

Definition ret {A : Type} (a : A) : M A := fun w => (Return a, w).

Definition bind {A B : Type} (m : M A) (k : A -> M B) : M B :=
  fun w =>
    match m w with
    | (Return a, w1) => k a w1
    | (Raise e, w1) => (Raise e, w1)
    end.

Definition raise {A : Type} (e : exn) : M A := fun w => (Raise e, w).

(** [try: body except Exception as e: handler e].  What the body wrote before
    it raised stays written. *)
Definition try_except {A : Type} (body : M A) (handler : exn -> M A) : M A :=
  fun w =>
    match body w with
    | (Return a, w1) => (Return a, w1)
    | (Raise e, w1) => handler e w1
    end.

Declare Scope py_scope.
Delimit Scope py_scope with py.
Notation "x <- c ;; k" := (bind c (fun x => k))
  (at level 100, c at next level, right associativity) : py_scope.
Notation "c ;;; k" := (bind c (fun _ => k))
  (at level 100, right associativity) : py_scope.
Open Scope py_scope.

(** The fate of the next [session.execute] call: [true] when the driver
    raises.  A world with no fault left is a healthy store. *)
Definition fate (w : World) : bool := hd false (faults w).

(** The world once [s] has been handed to [session.execute]. *)
Definition executed (s : Statement) (w : World) : World :=
  mkWorld (tables w) (tl (faults w)) (entropy w) (clock w) (trace w ++ [s]).

Definition with_tables (t : Tables) (w : World) : World :=
  mkWorld t (faults w) (entropy w) (clock w) (trace w).

(** Modelled from the spec: the storage session of
    [app.db.cassandra_client], consumed through [execute] alone.
    [cassandra_client.get_session()] hands out the session; every
    [session.execute] either raises or applies the statement. *)
Definition session_execute (s : Statement) : M (ResultOf s) :=
  fun w =>
    if fate w then (Raise DriverException, executed s w)
    else (Return (fst (run s (tables w))),
          with_tables (snd (run s (tables w))) (executed s w)).

Definition next_random : M Z :=
  fun w =>
    (Return (hd 0 (entropy w)),
     mkWorld (tables w) (faults w) (tl (entropy w)) (clock w) (trace w)).

(** [random.getrandbits(k)]. *)
Definition getrandbits (k : Z) : M Z :=
  r <- next_random ;; ret (Z.land r (Z.ones k)).

(** [uuid.uuid4()]: 128 bits of the random source.  The version and variant
    bits that the library then fixes are left as drawn. *)
Definition uuid4 : M UUID := getrandbits 128.

(** A [datetime] argument: its fields from year to microsecond, counted in
    microseconds since 1970-01-01 00:00:00, and the offset of its [tzinfo] in
    microseconds, [None] for a naive value. *)
Module Datetime.

Record t := mk {
  wall : Z;
  utcoffset : option Z
}.

Definition naive (fields : Z) : t := mk fields None.

(** 0001-01-01 00:00:00 and 9999-12-31 23:59:59.999999. *)
Definition MIN : Z := -62135596800000000.
Definition MAX : Z := 253402300799999999.

(** [calendar.timegm(d.utctimetuple())]: the seconds of the fields of [d]
    for a naive value, of [d - d.utcoffset()] for an aware one.  The
    subtraction raises [OverflowError] when it leaves the years 1 to 9999;
    that is the result [None]. *)
Definition timegm_utctimetuple (d : t) : option Z :=
  match utcoffset d with
  | None => Some (wall d / 1000000)
  | Some offset =>
      let utc := wall d - offset in
      if (MIN <=? utc) && (utc <=? MAX) then Some (utc / 1000000) else None
  end.

(** [d.time().microsecond]. *)
Definition microsecond (d : t) : Z := wall d mod 1000000.

End Datetime.

(** Python floats that hold whole numbers, as the integers they hold.
    [round_double x] is the double nearest to the integer [x], ties to the
    even significand of 53 bits (magnitudes far below the largest double). *)
Definition round_double (x : Z) : Z :=
  let a := Z.abs x in
  if a <? 2 ^ 53 then x
  else
    let unit := 2 ^ (Z.log2 a - 52) in
    let q := a / unit in
    let r := a mod unit in
    let half := unit / 2 in
    let q' := if r <? half then q
              else if half <? r then q + 1
              else if Z.even q then q else q + 1 in
    Z.sgn x * (q' * unit).

(** [float(n)], [x * y] and [x + y] on such floats. *)
Definition float_of_int (n : Z) : Z := round_double n.
Definition float_mul (x y : Z) : Z := round_double (x * y).
Definition float_add (x y : Z) : Z := round_double (x + y).

(** [datetime.utcnow()]: a naive [datetime], given by its fields counted in
    microseconds since 1970-01-01 00:00:00. *)
Definition utcnow : M Z :=
  fun w =>
    (Return (hd 0 (clock w)),
     mkWorld (tables w) (faults w) (entropy w) (tl (clock w)) (trace w)).

(** [cassandra.util.uuid_from_time(time_arg)] for a [datetime]:
    [seconds = int(calendar.timegm(time_arg.utctimetuple()))],
    [microseconds = (seconds * 1e6) + time_arg.time().microsecond] and
    [intervals = int(microseconds * 10) + 0x01b21dd213814000], the products
    and the sum being those of floats; then the 60 bits of [intervals], a
    random clock sequence and a random node.  The version and variant bits
    are left out of the key. *)
Definition uuid_from_time (time_arg : Datetime.t) : M TimeUUID :=
  match Datetime.timegm_utctimetuple time_arg with
  | None => raise OverflowError
  | Some seconds =>
      let microseconds :=
        float_add (float_mul (float_of_int seconds) 1000000)
                  (float_of_int (Datetime.microsecond time_arg)) in
      let intervals := float_mul microseconds 10 + 0x01b21dd213814000 in
      let time_low := Z.land intervals 0xffffffff in
      let time_mid := Z.land (Z.shiftr intervals 32) 0xffff in
      let time_hi_version := Z.land (Z.shiftr intervals 48) 0x0fff in
      clock_seq <- getrandbits 14 ;;
      node <- getrandbits 48 ;;
      ret (mkTimeUUID
             (Z.lor (Z.shiftl time_hi_version 48) (Z.lor (Z.shiftl time_mid 32) time_low))
             clock_seq node)
  end.

(** [row.get(column)] on a row of the driver's [dict_factory]: the rows of
    the three tables are written with every column bound. *)
Definition get {R C : Type} (column : R -> C) (r : R) : option C := Some (column r).

(** ** [MessageModel] *)

Module MessageModel.

Definition _get_or_create_conversation_id (user1_id user2_id : Z) : M UUID :=
  if user1_id =? user2_id then
    raise (ValueError "Cannot create conversation with oneself")
  else
    let user_a_id := Z.min user1_id user2_id in
    let user_b_id := Z.max user1_id user2_id in
    result <- session_execute (SelectConversationId user_a_id user_b_id) ;;
    match ResultSet.one result with
    | Some row => ret (ConversationByUsers.conversation_id row)
    | None =>
        new_conversation_id <- uuid4 ;;
        session_execute
          (InsertConversation
             (ConversationByUsers.mk user_a_id user_b_id new_conversation_id)) ;;;
        ret new_conversation_id
    end.

(** The tuple [(conversation_id, message_time, message_id)]; each
    component is [Optional]. *)
Definition created := (option UUID * option TimeUUID * option UUID)%type.

Definition create_message (sender_id receiver_id : Z) (content : str) : M created :=
  try_except
    (conversation_id <- _get_or_create_conversation_id sender_id receiver_id ;;
     now <- utcnow ;;
     message_time <- uuid_from_time (Datetime.naive now) ;;
     message_id <- uuid4 ;;
     session_execute
       (InsertMessage
          (MessagesByConversation.mk conversation_id message_time message_id
                                     sender_id receiver_id content)) ;;;
     session_execute
       (InsertConversationByUser
          (ConversationsByUser.mk sender_id message_time conversation_id
                                  receiver_id sender_id (slice_to 200 content))) ;;;
     session_execute
       (InsertConversationByUser
          (ConversationsByUser.mk receiver_id message_time conversation_id
                                  sender_id sender_id (slice_to 200 content))) ;;;
     ret (Some conversation_id, Some message_time, Some message_id))
    (fun e => ret (None, None, None)).

(** A message row after the loop has added the keys [created_at] and
    [id] to it. *)
Record message := mkMessage {
  columns : MessagesByConversation.row;
  created_at : option datetime;
  id : option UUID
}.

(** The body of [for msg in messages]. *)
Definition with_created_at (msg : MessagesByConversation.row) : message :=
  let created_at :=
    match get MessagesByConversation.message_time msg with
    | Some message_time =>
        let msg_timestamp := tu_time message_time in
        Some (UtcFromTimestamp msg_timestamp 1000000000)
    | None => None
    end in
  mkMessage msg created_at (get MessagesByConversation.message_id msg).

Definition get_conversation_messages
  (conversation_id : UUID) (page_size : Z) (paging_state : option nat)
  : M (list message * option nat) :=
  try_except
    (results <- session_execute (SelectMessages conversation_id page_size paging_state) ;;
     let messages := ResultSet.current_rows results in
     let next_paging_state := ResultSet.paging_state results in
     ret (map with_created_at messages, next_paging_state))
    (fun e => ret ([], None)).

Definition get_messages_before_timestamp
  (conversation_id : UUID) (before_timestamp : Datetime.t) (page_size : Z)
  (paging_state : option nat) : M (list message * option nat) :=
  before_timeuuid <- uuid_from_time before_timestamp ;;
  try_except
    (results <- session_execute
                  (SelectMessagesBefore conversation_id before_timeuuid
                                        page_size paging_state) ;;
     let messages := ResultSet.current_rows results in
     let next_paging_state := ResultSet.paging_state results in
     ret (map with_created_at messages, next_paging_state))
    (fun e => ret ([], None)).

End MessageModel.

(** ** [ConversationModel] *)

Module ConversationModel.

(** The summary built for each index row. *)
Record conversation := mkConversation {
  id : option UUID;
  user1_id : Z;
  user2_id : option Z;
  last_message_at : option datetime;
  last_message_content : option str
}.

(** The body of [for convo in conversations]. *)
Definition format (user_id : Z) (convo : ConversationsByUser.row) : conversation :=
  let last_msg_dt :=
    match get ConversationsByUser.last_message_time convo with
    | Some last_message_time =>
        let last_msg_timestamp_ns := tu_time last_message_time in
        Some (UtcFromTimestamp last_msg_timestamp_ns 1000000000)
    | None => None
    end in
  mkConversation (get ConversationsByUser.conversation_id convo)
                 user_id
                 (get ConversationsByUser.other_user_id convo)
                 last_msg_dt
                 (get ConversationsByUser.last_message_content convo).

Definition get_user_conversations
  (user_id : Z) (page_size : Z) (paging_state : option nat)
  : M (list conversation * option nat) :=
  try_except
    (results <- session_execute (SelectConversationsByUser user_id page_size paging_state) ;;
     let conversations := ResultSet.current_rows results in
     let next_paging_state := ResultSet.paging_state results in
     ret (map (format user_id) conversations, next_paging_state))
    (fun e => ret ([], None)).

Definition get_conversation (conversation_id : UUID) : M (option conversation) :=
  ret None.

Definition create_or_get_conversation (user1_id user2_id : Z) : M (option UUID) :=
  try_except
    (conversation_id <- MessageModel._get_or_create_conversation_id user1_id user2_id ;;
     ret (Some conversation_id))
    (fun e => ret None).

End ConversationModel.

(** * Vocabulary of the statements *)

Unset Implicit Arguments.

Import MessageModel.
Import ConversationModel.

(** The row of [conversation_by_users] that the point lookup on the pair
    [(a, b)] finds. *)
Definition stored_conversation (a b : Z) (t : Tables) : option ConversationByUsers.row :=
  hd_error (filter (fun r => (ConversationByUsers.user_a_id r =? a)
                             && (ConversationByUsers.user_b_id r =? b))
                   (conversation_by_users t)).

(** A store with nothing in it, a healthy session, and some values for the
    random source and the clock to hand out. *)
Definition fresh_world : World :=
  mkWorld (mkTables [] [] []) []
          [11; 22; 33; 44; 55; 66; 77; 88; 99; 110; 121; 132]
          [1000; 2000; 3000; 4000] [].

(** The clock and the random source never raise and leave the tables, the
    session and the list of executed statements alone. *)
Definition quiet {A : Type} (m : M A) : Prop :=
  forall w, exists a w',
    m w = (Return a, w')
    /\ tables w' = tables w /\ faults w' = faults w /\ trace w' = trace w.

(** The rows one append writes. *)
Definition message_row (cid : UUID) (t : TimeUUID) (mid : UUID) (s r : Z) (c : str) :=
  MessagesByConversation.mk cid t mid s r c.

Definition sender_entry (cid : UUID) (t : TimeUUID) (s r : Z) (c : str) :=
  ConversationsByUser.mk s t cid r s (slice_to 200 c).

Definition receiver_entry (cid : UUID) (t : TimeUUID) (s r : Z) (c : str) :=
  ConversationsByUser.mk r t cid s s (slice_to 200 c).

(** The tables after the three writes of steps 3 to 5. *)
Definition fanned_out (cid : UUID) (t : TimeUUID) (mid : UUID) (s r : Z) (c : str)
  (tb : Tables) : Tables :=
  mkTables (conversation_by_users tb)
           (upsert same_message_key (message_row cid t mid s r c)
                   (messages_by_conversation tb))
           (upsert same_index_key (receiver_entry cid t s r c)
                   (upsert same_index_key (sender_entry cid t s r c)
                           (conversations_by_user tb))).

(** [tracked V m]: a run of [m] hands some statements to the session, uses
    up as many fates as statements, raises the driver's exception exactly
    when one of these fates is a fault, raises a [ValueError] only when
    [V] holds, and raises no [OverflowError]. *)
Definition tracked {A : Type} (V : Prop) (m : M A) : Prop :=
  forall w r w',
    m w = (r, w') ->
    exists stmts,
      trace w' = trace w ++ stmts
      /\ faults w' = skipn (List.length stmts) (faults w)
      /\ (r = Raise DriverException <-> In true (firstn (List.length stmts) (faults w)))
      /\ (forall msg, r = Raise (ValueError msg) -> V)
      /\ r <> Raise OverflowError.

(** Steps 1 to 5 of [create_message], the body of its [try]. *)
Definition append_steps (sender_id receiver_id : Z) (content : str) : M created :=
  conversation_id <- _get_or_create_conversation_id sender_id receiver_id ;;
  now <- utcnow ;;
  message_time <- uuid_from_time (Datetime.naive now) ;;
  message_id <- uuid4 ;;
  session_execute
    (InsertMessage
       (MessagesByConversation.mk conversation_id message_time message_id
                                  sender_id receiver_id content)) ;;;
  session_execute
    (InsertConversationByUser
       (ConversationsByUser.mk sender_id message_time conversation_id
                               receiver_id sender_id (slice_to 200 content))) ;;;
  session_execute
    (InsertConversationByUser
       (ConversationsByUser.mk receiver_id message_time conversation_id
                               sender_id sender_id (slice_to 200 content))) ;;;
  ret (Some conversation_id, Some message_time, Some message_id).

(** The index upserts among a list of statements, in order. *)
Definition index_upserts (stmts : list Statement) : list ConversationsByUser.row :=
  flat_map (fun s => match s with InsertConversationByUser r => [r] | _ => [] end) stmts.

(** The message inserts among a list of statements, in order. *)
Definition message_inserts (stmts : list Statement) : list MessagesByConversation.row :=
  flat_map (fun s => match s with InsertMessage r => [r] | _ => [] end) stmts.

(** A session whose third call faults. *)
Definition faulty_world : World :=
  mkWorld (mkTables [] [] []) [false; false; true]
          [11; 22; 33; 44; 55; 66; 77; 88; 99]
          [1000; 2000; 3000; 4000] [].

(** The index rows stored for user [u] and conversation [cid]. *)
Definition index_entries (u : Z) (cid : UUID) (tb : Tables) : list ConversationsByUser.row :=
  filter (fun x => (ConversationsByUser.user_id x =? u)
                   && (ConversationsByUser.conversation_id x =? cid))
         (conversations_by_user tb).

(** The message rows stored for conversation [cid] at time key [t]. *)
Definition message_rows (cid : UUID) (t : TimeUUID) (tb : Tables)
  : list MessagesByConversation.row :=
  filter (fun x => (MessagesByConversation.conversation_id x =? cid)
                   && timeuuid_eqb (MessagesByConversation.message_time x) t)
         (messages_by_conversation tb).

(** A text of 201 characters. *)
Definition long_text : str := repeat 97 201.

(** A conversation with three messages: one a tick before the bound, one in
    the tick of the bound with a smaller tie-breaker, one with a larger. *)
Definition three_messages : World :=
  mkWorld
    (mkTables []
       [ MessagesByConversation.mk 11 (mkTimeUUID 122192928000029999 9 9) 1 1 2 [97];
         MessagesByConversation.mk 11 (mkTimeUUID 122192928000030000 21 5) 2 2 1 [98];
         MessagesByConversation.mk 11 (mkTimeUUID 122192928000030000 23 5) 3 1 2 [99] ]
       [])
    [] [22; 33] [] [].

(** A session whose next call faults, over a store that holds messages. *)
Definition failing_read_world : World :=
  mkWorld (tables three_messages) [true] [22; 33] [] [].

(** A message [(sender, receiver, content)] exchanged between [a] and [b]. *)
Definition between (a b : Z) (m : Z * Z * str) : Prop :=
  let '(s, r, _) := m in (s = a /\ r = b) \/ (s = b /\ r = a).

(** Appends in sequence, each of which succeeds; the results in order. *)
Fixpoint append_all (msgs : list (Z * Z * str)) (w : World)
  : option (list (UUID * TimeUUID * UUID) * World) :=
  match msgs with
  | [] => Some ([], w)
  | (s, r, c) :: rest =>
      match create_message s r c w with
      | (Return (Some cid, Some t, Some mid), w1) =>
          match append_all rest w1 with
          | Some (results, w') => Some ((cid, t, mid) :: results, w')
          | None => None
          end
      | _ => None
      end
  end.

(** Is [e] the summary of conversation [cid]? *)
Definition is_conversation (cid : UUID) (e : conversation) : bool :=
  match id e with
  | Some x => x =? cid
  | None => false
  end.

(** A store in which users 1 and 2 already share conversation 500. *)
Definition acquainted_world : World :=
  mkWorld (mkTables [ConversationByUsers.mk 1 2 500] [] []) []
          [11; 22; 33; 44; 55; 66; 77; 88; 99]
          [1000; 2000; 3000; 4000] [].

(** [keeps P m]: whatever the outcome of [m], a property [P] of the tables
    that held before holds after. *)
Definition keeps {A : Type} (P : Tables -> Prop) (m : M A) : Prop :=
  forall w r w', m w = (r, w') -> P (tables w) -> P (tables w').

(** An index row as [create_message] writes them: two distinct users, the
    last sender one of them, a preview of at most 200 characters. *)
Definition index_row_ok (x : ConversationsByUser.row) : Prop :=
  ConversationsByUser.user_id x <> ConversationsByUser.other_user_id x
  /\ (ConversationsByUser.last_message_sender_id x = ConversationsByUser.user_id x
      \/ ConversationsByUser.last_message_sender_id x = ConversationsByUser.other_user_id x)
  /\ (List.length (ConversationsByUser.last_message_content x) <= 200)%nat.

Definition index_ok (tb : Tables) : Prop :=
  Forall index_row_ok (conversations_by_user tb).

(** A session on which identity resolution and the two first writes of the
    fan-out go through and the third write fails. *)
Definition half_way_world : World :=
  mkWorld (mkTables [ConversationByUsers.mk 1 2 500] [] [])
          [false; false; false; true]
          [22; 33; 44; 55; 66; 77]
          [1000; 2000] [].



(** 0001-01-01 00:00:00 at an offset of one hour: an aware [datetime] whose
    UTC value would lie in the year 0. *)
Definition before_year_one : Datetime.t :=
  Datetime.mk Datetime.MIN (Some 3600000000).

(** * Properties *)

(** ** The monad and the session *)

Lemma bind_Return (A B : Type) (m : M A) (k : A -> M B) (w : World) (b : B) (w' : World) :
  bind m k w = (Return b, w') ->
  exists a w1, m w = (Return a, w1) /\ k a w1 = (Return b, w').
Proof.
  unfold bind. destruct (m w) as [[a | e] w1]; intros H.
  - exists a, w1. split; [reflexivity | exact H].
  - discriminate H.
Qed.

Lemma bind_run (A B : Type) (m : M A) (k : A -> M B) (w w1 : World) (a : A) :
  m w = (Return a, w1) -> bind m k w = k a w1.
Proof. unfold bind. intros ->. reflexivity. Qed.

Lemma bind_raise (A B : Type) (m : M A) (k : A -> M B) (w w1 : World) (e : exn) :
  m w = (Raise e, w1) -> bind m k w = (Raise e, w1).
Proof. unfold bind. intros ->. reflexivity. Qed.

Lemma execute_ok (s : Statement) (w : World) :
  fate w = false ->
  session_execute s w
  = (Return (fst (run s (tables w))), with_tables (snd (run s (tables w))) (executed s w)).
Proof. unfold session_execute. intros ->. reflexivity. Qed.

Lemma execute_fault (s : Statement) (w : World) :
  fate w = true -> session_execute s w = (Raise DriverException, executed s w).
Proof. unfold session_execute. intros ->. reflexivity. Qed.

Lemma execute_Return (s : Statement) (w w' : World) (r : ResultOf s) :
  session_execute s w = (Return r, w') ->
  fate w = false /\ r = fst (run s (tables w))
  /\ w' = with_tables (snd (run s (tables w))) (executed s w).
Proof.
  unfold session_execute. destruct (fate w); intros H; inversion H. auto.
Qed.

(** ** Conversation identity *)

Lemma hd_error_firstn_1 (A : Type) (l : list A) : hd_error (firstn 1 l) = hd_error l.
Proof. destruct l; reflexivity. Qed.

Lemma one_select_conversation (a b : Z) (t : Tables) :
  ResultSet.one (fst (run (SelectConversationId a b) t)) = stored_conversation a b t.
Proof. unfold ResultSet.one, stored_conversation. simpl. apply hd_error_firstn_1. Qed.

Lemma select_conversation_tables (a b : Z) (t : Tables) :
  snd (run (SelectConversationId a b) t) = t.
Proof. reflexivity. Qed.

Lemma stored_after_insert (a b : Z) (cid : UUID) (t : Tables) :
  stored_conversation a b (snd (run (InsertConversation (ConversationByUsers.mk a b cid)) t))
  = Some (ConversationByUsers.mk a b cid).
Proof.
  unfold stored_conversation. simpl. rewrite !Z.eqb_refl. reflexivity.
Qed.

(** [_get_or_create_conversation_id] on a pair that is already stored: one
    SELECT, no write. *)
Lemma resolve_known (u1 u2 : Z) (w : World) (row : ConversationByUsers.row) :
  u1 <> u2 ->
  stored_conversation (Z.min u1 u2) (Z.max u1 u2) (tables w) = Some row ->
  _get_or_create_conversation_id u1 u2 w
  = if fate w
    then (Raise DriverException, executed (SelectConversationId (Z.min u1 u2) (Z.max u1 u2)) w)
    else (Return (ConversationByUsers.conversation_id row),
          executed (SelectConversationId (Z.min u1 u2) (Z.max u1 u2)) w).
Proof.
  intros Hne Hrow. unfold _get_or_create_conversation_id.
  destruct (Z.eqb_spec u1 u2) as [E | _]; [contradiction |].
  destruct (fate w) eqn:F.
  - apply bind_raise. apply execute_fault. exact F.
  - erewrite bind_run by (apply execute_ok; exact F).
    rewrite one_select_conversation, Hrow, select_conversation_tables.
    destruct w; reflexivity.
Qed.

(** Whenever [_get_or_create_conversation_id] returns, the identifier it
    returns is the one stored for the canonical pair afterwards. *)
Lemma resolve_stores (u1 u2 : Z) (w w1 : World) (cid : UUID) :
  _get_or_create_conversation_id u1 u2 w = (Return cid, w1) ->
  u1 <> u2
  /\ exists row,
      stored_conversation (Z.min u1 u2) (Z.max u1 u2) (tables w1) = Some row
      /\ ConversationByUsers.conversation_id row = cid.
Proof.
  unfold _get_or_create_conversation_id.
  destruct (Z.eqb_spec u1 u2) as [E | Hne]; [discriminate |].
  intros H. split; [exact Hne |].
  apply bind_Return in H. destruct H as (rs & w0 & Hsel & H).
  apply execute_Return in Hsel. destruct Hsel as (F & -> & ->).
  rewrite one_select_conversation in H.
  destruct (stored_conversation (Z.min u1 u2) (Z.max u1 u2) (tables w)) as [row |] eqn:S.
  - inversion H; subst. exists row. split; [exact S | reflexivity].
  - apply bind_Return in H. destruct H as (new & w2 & Hnew & H).
    apply bind_Return in H. destruct H as (r & w3 & Hins & H).
    apply execute_Return in Hins. destruct Hins as (F2 & _ & ->).
    inversion H; subst. eexists. split; [apply stored_after_insert | reflexivity].
Qed.

(** On a healthy store [_get_or_create_conversation_id] returns. *)
Lemma resolve_healthy (u1 u2 : Z) (w : World) :
  u1 <> u2 -> faults w = [] ->
  exists cid w1,
    _get_or_create_conversation_id u1 u2 w = (Return cid, w1) /\ faults w1 = [].
Proof.
  intros Hne Hf.
  assert (F : fate w = false) by (unfold fate; rewrite Hf; reflexivity).
  destruct (stored_conversation (Z.min u1 u2) (Z.max u1 u2) (tables w)) as [row |] eqn:S.
  - rewrite (resolve_known u1 u2 w row Hne S), F.
    do 2 eexists. split; [reflexivity |]. simpl. rewrite Hf. reflexivity.
  - unfold _get_or_create_conversation_id.
    destruct (Z.eqb_spec u1 u2) as [E | _]; [contradiction |].
    erewrite bind_run by (apply execute_ok; exact F).
    rewrite one_select_conversation, S.
    unfold bind, uuid4, getrandbits, bind, next_random, ret, session_execute, fate.
    simpl. rewrite Hf. simpl. do 2 eexists. split; reflexivity.
Qed.

(** The guard of [_get_or_create_conversation_id] fires before anything
    else happens. *)
Lemma self_conversation_raises (a : Z) (w : World) :
  _get_or_create_conversation_id a a w
  = (Raise (ValueError "Cannot create conversation with oneself"), w).
Proof.
  unfold _get_or_create_conversation_id. rewrite Z.eqb_refl. reflexivity.
Qed.

(** C5. [_get_or_create_conversation_id a a] raises the [ValueError] of the
    self-conversation guard for every [a]: it returns no identifier, and the
    world, its tables and the list of statements handed to the session
    included, is left as it was. *)
Theorem resolve_self_rejected (a : Z) (w : World) :
  _get_or_create_conversation_id a a w
  = (Raise (ValueError "Cannot create conversation with oneself"), w).
Proof.
  unfold _get_or_create_conversation_id. rewrite Z.eqb_refl. reflexivity.
Qed.

(** Through the public entry point the rejection shows as [None]. *)
Lemma create_or_get_conversation_self (a : Z) (w : World) :
  create_or_get_conversation a a w = (Return None, w).
Proof.
  unfold create_or_get_conversation, try_except.
  erewrite bind_raise by apply self_conversation_raises. reflexivity.
Qed.

(** C4. For distinct users [a] and [b], [resolve(a,b)] and [resolve(b,a)]
    are the same computation on every world, because both look up and insert
    the pair [(min, max)]; called one after the other they return the same
    identifier, and on a healthy store both calls do return. *)
Theorem resolve_commutative (a b : Z) (w : World) :
  a <> b ->
  _get_or_create_conversation_id a b w = _get_or_create_conversation_id b a w
  /\ (forall cid w1 cid' w2,
        _get_or_create_conversation_id a b w = (Return cid, w1) ->
        _get_or_create_conversation_id b a w1 = (Return cid', w2) ->
        cid' = cid)
  /\ (faults w = [] ->
      exists cid w1 w2,
        _get_or_create_conversation_id a b w = (Return cid, w1)
        /\ _get_or_create_conversation_id b a w1 = (Return cid, w2)).
Proof.
  intros Hne.
  assert (Hsym : forall w0, _get_or_create_conversation_id a b w0
                            = _get_or_create_conversation_id b a w0).
  { intros w0. unfold _get_or_create_conversation_id.
    rewrite (Z.eqb_sym a b), (Z.min_comm a b), (Z.max_comm a b). reflexivity. }
  assert (Hseq : forall cid w1 cid' w2,
             _get_or_create_conversation_id a b w = (Return cid, w1) ->
             _get_or_create_conversation_id b a w1 = (Return cid', w2) ->
             cid' = cid).
  { intros cid w1 cid' w2 H1 H2. rewrite <- Hsym in H2.
    apply resolve_stores in H1. destruct H1 as (_ & row & S & <-).
    rewrite (resolve_known a b w1 row Hne S) in H2.
    destruct (fate w1); inversion H2. reflexivity. }
  split; [apply Hsym | split; [exact Hseq |]].
  intros Hf.
  destruct (resolve_healthy a b w Hne Hf) as (cid & w1 & H1 & Hf1).
  assert (Hne' : b <> a) by congruence.
  destruct (resolve_healthy b a w1 Hne' Hf1) as (cid' & w2 & H2 & _).
  exists cid, w1, w2. split; [exact H1 |].
  rewrite (Hseq cid w1 cid' w2 H1 H2) in H2. exact H2.
Qed.

Lemma resolve_commutative_witness :
  exists cid w1 w2,
    _get_or_create_conversation_id 7 3 fresh_world = (Return cid, w1)
    /\ _get_or_create_conversation_id 3 7 w1 = (Return cid, w2).
Proof.
  assert (H : 7 <> 3) by lia.
  destruct (resolve_commutative 7 3 fresh_world H) as (_ & _ & Hrun).
  apply Hrun. reflexivity.
Defined.

(** C3. For distinct users [a] and [b], a second sequential
    [resolve(a,b)] returns the identifier the first one returned, and it
    writes nothing: the tables are untouched and the one statement it hands
    to the session is the SELECT.  The first call leaves the tables alone as
    well when the pair was already stored.  On a healthy store both calls
    return. *)
Theorem resolve_idempotent (a b : Z) (w : World) :
  a <> b ->
  (forall cid w1 r w2,
      _get_or_create_conversation_id a b w = (Return cid, w1) ->
      _get_or_create_conversation_id a b w1 = (r, w2) ->
      (r = Return cid \/ r = Raise DriverException)
      /\ tables w2 = tables w1
      /\ trace w2 = trace w1 ++ [SelectConversationId (Z.min a b) (Z.max a b)])
  /\ (forall cid w1,
        stored_conversation (Z.min a b) (Z.max a b) (tables w) <> None ->
        _get_or_create_conversation_id a b w = (Return cid, w1) ->
        tables w1 = tables w)
  /\ (faults w = [] ->
      exists cid w1 w2,
        _get_or_create_conversation_id a b w = (Return cid, w1)
        /\ _get_or_create_conversation_id a b w1 = (Return cid, w2)).
Proof.
  intros Hne. split; [| split].
  - intros cid w1 r w2 H1 H2.
    apply resolve_stores in H1. destruct H1 as (_ & row & S & <-).
    rewrite (resolve_known a b w1 row Hne S) in H2.
    destruct (fate w1); inversion H2; subst; simpl; auto.
  - intros cid w1 S H1.
    destruct (stored_conversation (Z.min a b) (Z.max a b) (tables w)) as [row |] eqn:E;
      [| contradiction].
    rewrite (resolve_known a b w row Hne E) in H1.
    destruct (fate w); inversion H1. reflexivity.
  - intros Hf.
    destruct (resolve_healthy a b w Hne Hf) as (cid & w1 & H1 & Hf1).
    destruct (resolve_healthy a b w1 Hne Hf1) as (cid' & w2 & H2 & _).
    exists cid, w1, w2. split; [exact H1 |].
    pose proof (resolve_stores _ _ _ _ _ H1) as (_ & row & S & <-).
    rewrite (resolve_known a b w1 row Hne S) in H2 |- *.
    destruct (fate w1); [discriminate H2 |]. inversion H2. reflexivity.
Qed.

Lemma resolve_idempotent_witness :
  exists cid w1 w2,
    _get_or_create_conversation_id 1 2 fresh_world = (Return cid, w1)
    /\ _get_or_create_conversation_id 1 2 w1 = (Return cid, w2).
Proof.
  assert (H : 1 <> 2) by lia.
  destruct (resolve_idempotent 1 2 fresh_world H) as (_ & _ & Hrun).
  apply Hrun. reflexivity.
Defined.

(** ** Message append *)

Lemma quiet_utcnow : quiet utcnow.
Proof. intros w. do 2 eexists. split; [reflexivity | simpl; auto]. Qed.

Lemma quiet_getrandbits (k : Z) : quiet (getrandbits k).
Proof. intros w. do 2 eexists. split; [reflexivity | simpl; auto]. Qed.

Lemma quiet_uuid4 : quiet uuid4.
Proof. apply quiet_getrandbits. Qed.

Lemma quiet_uuid_from_time_seconds (time_arg : Datetime.t) (seconds : Z) :
  Datetime.timegm_utctimetuple time_arg = Some seconds ->
  quiet (uuid_from_time time_arg).
Proof.
  intros E w. unfold uuid_from_time. rewrite E.
  do 2 eexists. split; [reflexivity |]. cbn [tables faults trace]. auto.
Qed.

Lemma quiet_uuid_from_time (now : Z) : quiet (uuid_from_time (Datetime.naive now)).
Proof. apply (quiet_uuid_from_time_seconds _ (now / 1000000)). reflexivity. Qed.

Lemma quiet_Return (A : Type) (m : M A) (w w' : World) (a : A) :
  quiet m -> m w = (Return a, w') ->
  tables w' = tables w /\ faults w' = faults w /\ trace w' = trace w.
Proof.
  intros Q H. destruct (Q w) as (a0 & w0 & E & T). rewrite E in H.
  inversion H; subst. exact T.
Qed.


(** Anatomy of a successful [create_message]: identity resolution returned,
    then the three writes went through, in this order. *)
Lemma create_message_success (s r : Z) (c : str) (w w' : World)
  (cid : UUID) (t : TimeUUID) (mid : UUID) :
  create_message s r c w = (Return (Some cid, Some t, Some mid), w') ->
  exists w1,
    _get_or_create_conversation_id s r w = (Return cid, w1)
    /\ tables w' = fanned_out cid t mid s r c (tables w1)
    /\ trace w' = trace w1 ++ [InsertMessage (message_row cid t mid s r c);
                               InsertConversationByUser (sender_entry cid t s r c);
                               InsertConversationByUser (receiver_entry cid t s r c)]
    /\ faults w' = skipn 3 (faults w1)
    /\ firstn 3 (faults w1 ++ [false; false; false]) = [false; false; false].
Proof.
  unfold create_message, try_except.
  match goal with |- context [match ?b w with _ => _ end] => destruct (b w) as [[res | e] w2] eqn:B end;
    [| unfold ret; intros H; discriminate H].
  intros H. inversion H; subst res w2. clear H.
  apply bind_Return in B. destruct B as (cid0 & w1 & Hres & B).
  apply bind_Return in B. destruct B as (now & w2 & Hnow & B).
  apply bind_Return in B. destruct B as (t0 & w3 & Ht & B).
  apply bind_Return in B. destruct B as (mid0 & w4 & Hmid & B).
  apply bind_Return in B. destruct B as (r1 & w5 & Hm & B).
  apply bind_Return in B. destruct B as (r2 & w6 & Hs & B).
  apply bind_Return in B. destruct B as (r3 & w7 & Hr & B).
  unfold ret in B. inversion B; subst cid0 t0 mid0 w7. clear B.
  apply (quiet_Return _ _ _ _ _ quiet_utcnow) in Hnow. destruct Hnow as (T2 & F2 & R2).
  apply (quiet_Return _ _ _ _ _ (quiet_uuid_from_time now)) in Ht. destruct Ht as (T3 & F3 & R3).
  apply (quiet_Return _ _ _ _ _ quiet_uuid4) in Hmid. destruct Hmid as (T4 & F4 & R4).
  apply execute_Return in Hm. destruct Hm as (Fm & _ & ->).
  apply execute_Return in Hs. destruct Hs as (Fs & _ & ->).
  apply execute_Return in Hr. destruct Hr as (Fr & _ & ->).
  exists w1. split; [exact Hres |].
  assert (T : tables w4 = tables w1) by congruence.
  assert (F : faults w4 = faults w1) by congruence.
  assert (R : trace w4 = trace w1) by congruence.
  unfold fate in Fm, Fs, Fr. simpl in Fm, Fs, Fr. rewrite F in Fm, Fs, Fr.
  simpl. rewrite T, R, F, <- !app_assoc. simpl.
  repeat split.
  - destruct (faults w1) as [| f1 [| f2 [| f3 l]]]; reflexivity.
  - destruct (faults w1) as [| f1 [| f2 [| f3 l]]]; simpl in *; congruence.
Qed.

(** ** Which calls raise *)

Lemma firstn_plus (A : Type) (n m : nat) (l : list A) :
  firstn (n + m) l = firstn n l ++ firstn m (skipn n l).
Proof.
  revert l. induction n as [| n IH]; intros l; simpl.
  - reflexivity.
  - destruct l as [| x l]; simpl.
    + rewrite firstn_nil. reflexivity.
    + rewrite IH. reflexivity.
Qed.

Lemma tracked_ret (A : Type) (V : Prop) (a : A) : tracked V (ret a).
Proof.
  intros w r w' H. inversion H; subst. exists []. simpl.
  rewrite app_nil_r. repeat split; try tauto; discriminate.
Qed.

Lemma tracked_raise (A : Type) (V : Prop) (msg : string) :
  V -> tracked V (@raise A (ValueError msg)).
Proof.
  intros HV w r w' H. inversion H; subst. exists []. simpl.
  rewrite app_nil_r. repeat split; try tauto; discriminate.
Qed.

Lemma tracked_quiet (A : Type) (V : Prop) (m : M A) : quiet m -> tracked V m.
Proof.
  intros Q w r w' H. destruct (Q w) as (a & w0 & E & T & F & R).
  rewrite E in H. inversion H; subst. exists []. simpl.
  rewrite app_nil_r. repeat split; try tauto; try congruence; discriminate.
Qed.

Lemma tracked_execute (V : Prop) (s : Statement) : tracked V (session_execute s).
Proof.
  intros w r w' H. exists [s]. unfold session_execute, fate in H.
  destruct (faults w) as [| f l] eqn:F; simpl in H.
  - inversion H; subst. simpl. rewrite F. simpl.
    repeat split; try tauto; discriminate.
  - destruct f; inversion H; subst; simpl; rewrite F; simpl;
      repeat split; try tauto; try discriminate; intros [E | []]; discriminate.
Qed.

Lemma tracked_bind (A B : Type) (V : Prop) (m : M A) (k : A -> M B) :
  tracked V m -> (forall a, tracked V (k a)) -> tracked V (bind m k).
Proof.
  intros Hm Hk w r w' H. unfold bind in H.
  destruct (m w) as [[a | e] w1] eqn:E.
  - destruct (Hm w _ _ E) as (s1 & T1 & F1 & I1 & _).
    destruct (Hk a w1 r w' H) as (s2 & T2 & F2 & I2 & V2 & O2).
    exists (s1 ++ s2). rewrite length_app, firstn_plus.
    split; [| split; [| split; [split |] ]].
    + rewrite T2, T1, app_assoc. reflexivity.
    + rewrite F2, F1, skipn_skipn, Nat.add_comm. reflexivity.
    + intros Hr. apply in_or_app. right. rewrite <- F1. apply I2, Hr.
    + intros Hin. apply in_app_or in Hin. destruct Hin as [Hin | Hin].
      * apply I1 in Hin. discriminate Hin.
      * apply I2. rewrite F1. exact Hin.
    + split; [exact V2 | exact O2].
  - inversion H; subst. destruct (Hm w _ _ E) as (s1 & T1 & F1 & I1 & V1 & O1).
    exists s1. split; [exact T1 |]. split; [exact F1 |]. split; [split |]; [| | split].
    + intros Hr. inversion Hr; subst. apply I1. reflexivity.
    + intros Hin. apply I1 in Hin. inversion Hin. reflexivity.
    + intros msg Hr. inversion Hr; subst. apply (V1 msg). reflexivity.
    + intros Hr. inversion Hr; subst. apply O1. reflexivity.
Qed.

Lemma tracked_resolve (u1 u2 : Z) :
  tracked (u1 = u2) (_get_or_create_conversation_id u1 u2).
Proof.
  unfold _get_or_create_conversation_id.
  destruct (Z.eqb_spec u1 u2) as [E | Hne].
  - apply tracked_raise, E.
  - apply tracked_bind; [apply tracked_execute |].
    intros rs. destruct (ResultSet.one rs) as [row |].
    + apply tracked_ret.
    + apply tracked_bind; [apply tracked_quiet, quiet_uuid4 |].
      intros new. apply tracked_bind; [apply tracked_execute |].
      intros _. apply tracked_ret.
Qed.

Lemma create_message_unfold (s r : Z) (c : str) :
  create_message s r c = try_except (append_steps s r c) (fun _ => ret (None, None, None)).
Proof. reflexivity. Qed.

Lemma tracked_append_steps (s r : Z) (c : str) : tracked (s = r) (append_steps s r c).
Proof.
  unfold append_steps.
  apply tracked_bind; [apply tracked_resolve |]. intros cid.
  apply tracked_bind; [apply tracked_quiet, quiet_utcnow |]. intros now.
  apply tracked_bind; [apply tracked_quiet, quiet_uuid_from_time |]. intros t.
  apply tracked_bind; [apply tracked_quiet, quiet_uuid4 |]. intros mid.
  repeat (apply tracked_bind; [apply tracked_execute |]; intros _).
  apply tracked_ret.
Qed.

Lemma append_steps_Return (s r : Z) (c : str) (w w' : World) (res : created) :
  append_steps s r c w = (Return res, w') ->
  s <> r /\ exists cid t mid, res = (Some cid, Some t, Some mid).
Proof.
  intros B. unfold append_steps in B.
  apply bind_Return in B. destruct B as (cid & w1 & Hres & B).
  apply resolve_stores in Hres. destruct Hres as (Hne & _).
  split; [exact Hne |].
  repeat (apply bind_Return in B; destruct B as (? & ? & _ & B)).
  inversion B. eauto.
Qed.

(** What [create_message] does on every input: it returns; the result is
    [(None, None, None)] when the sender is the receiver or one of the calls
    it made faulted, and three values otherwise. *)
Lemma create_message_outcome (s r : Z) (c : str) (w : World) :
  exists res w' stmts,
    create_message s r c w = (Return res, w')
    /\ trace w' = trace w ++ stmts
    /\ faults w' = skipn (List.length stmts) (faults w)
    /\ ((res = (None, None, None)
         /\ (s = r \/ In true (firstn (List.length stmts) (faults w))))
        \/ ((exists cid t mid, res = (Some cid, Some t, Some mid))
            /\ s <> r /\ ~ In true (firstn (List.length stmts) (faults w)))).
Proof.
  rewrite create_message_unfold. unfold try_except.
  destruct (append_steps s r c w) as [[res | e] w1] eqn:B.
  - destruct (tracked_append_steps s r c w _ _ B) as (stmts & T & F & I & _).
    destruct (append_steps_Return _ _ _ _ _ _ B) as (Hne & Hres).
    exists res, w1, stmts. repeat split; try assumption.
    right. repeat split; try assumption.
    intros Hin. apply I in Hin. discriminate Hin.
  - destruct (tracked_append_steps s r c w _ _ B) as (stmts & T & F & I & V & O).
    exists (None, None, None), w1, stmts. repeat split; try assumption.
    left. split; [reflexivity |].
    destruct e as [msg | |].
    + left. apply (V msg). reflexivity.
    + right. apply I. reflexivity.
    + exfalso. apply O. reflexivity.
Qed.

(** The statements [_get_or_create_conversation_id] hands to the session
    when it returns: the SELECT, and on first contact the INSERT of the
    identifier it returns. *)
Lemma resolve_trace (u1 u2 : Z) (w w1 : World) (cid : UUID) :
  _get_or_create_conversation_id u1 u2 w = (Return cid, w1) ->
  trace w1 = trace w ++ [SelectConversationId (Z.min u1 u2) (Z.max u1 u2)]
  \/ trace w1 = trace w ++ [SelectConversationId (Z.min u1 u2) (Z.max u1 u2);
                            InsertConversation
                              (ConversationByUsers.mk (Z.min u1 u2) (Z.max u1 u2) cid)].
Proof.
  unfold _get_or_create_conversation_id.
  destruct (Z.eqb_spec u1 u2) as [E | Hne]; [discriminate |].
  intros H.
  apply bind_Return in H. destruct H as (rs & w0 & Hsel & H).
  apply execute_Return in Hsel. destruct Hsel as (F & -> & ->).
  destruct (ResultSet.one _) as [row |].
  - inversion H; subst. left. reflexivity.
  - apply bind_Return in H. destruct H as (new & w2 & Hnew & H).
    apply bind_Return in H. destruct H as (r & w3 & Hins & H).
    apply (quiet_Return _ _ _ _ _ quiet_uuid4) in Hnew. destruct Hnew as (_ & _ & R).
    apply execute_Return in Hins. destruct Hins as (_ & _ & ->).
    inversion H; subst. right. simpl. rewrite R. simpl.
    rewrite <- app_assoc. reflexivity.
Qed.

(** C1, as stated, fails: a message from user 5 to user 5 makes
    [create_message] return [(None, None, None)]; the [ValueError] of
    identity resolution does not reach the caller. *)
Lemma create_message_self_send_is_swallowed :
  fst (create_message 5 5 [104; 105] fresh_world) = Return (None, None, None)
  /\ ~ (exists e, fst (create_message 5 5 [104; 105] fresh_world) = Raise e).
Proof.
  split; [reflexivity |]. intros [e H]. discriminate H.
Qed.

(** C1, amended. [create_message] lets no exception through.  When the
    sender is the receiver, its [except] clause catches the [ValueError] of
    identity resolution and the result is [(None, None, None)], with the
    world untouched; when one of the [session.execute] calls of steps 1 to 5
    raises, the result is [(None, None, None)] as well. *)
Theorem create_message_catches_every_error (s r : Z) (c : str) (w : World) :
  (s = r -> create_message s r c w = (Return (None, None, None), w))
  /\ exists res w' stmts,
      create_message s r c w = (Return res, w')
      /\ trace w' = trace w ++ stmts
      /\ (In true (firstn (List.length stmts) (faults w)) -> res = (None, None, None)).
Proof.
  split.
  - intros <-. rewrite create_message_unfold. unfold try_except, append_steps.
    erewrite bind_raise by apply self_conversation_raises. reflexivity.
  - destruct (create_message_outcome s r c w) as (res & w' & stmts & E & T & _ & H).
    exists res, w', stmts. repeat split; try assumption.
    intros Hin. destruct H as [[H _] | (_ & _ & H)]; [exact H | contradiction].
Qed.

Lemma create_message_catches_every_error_witness :
  create_message 5 5 [104; 105] fresh_world = (Return (None, None, None), fresh_world)
  /\ fst (create_message 1 2 [104; 105] faulty_world) = Return (None, None, None).
Proof.
  split.
  - apply (proj1 (create_message_catches_every_error 5 5 [104; 105] fresh_world)).
    reflexivity.
  - destruct (create_message_catches_every_error 1 2 [104; 105] faulty_world)
      as (_ & res & w' & stmts & E & T & H).
    rewrite E. simpl. f_equal. apply H.
    assert (E' := E). vm_compute in E'. inversion E' as [[Hres Hw]].
    rewrite <- Hw in T. vm_compute in T. rewrite <- T. vm_compute. auto.
Defined.

(** C10. On every input [create_message] returns to its caller, and what it
    returns is either [(None, None, None)] or three values, never a mix:
    [(None, None, None)] when the sender is the receiver or one of the
    [session.execute] calls it made raised, three values otherwise. *)
Theorem create_message_all_or_nothing (s r : Z) (c : str) (w : World) :
  exists res w' stmts,
    create_message s r c w = (Return res, w')
    /\ trace w' = trace w ++ stmts
    /\ ((res = (None, None, None)
         /\ (s = r \/ In true (firstn (List.length stmts) (faults w))))
        \/ ((exists cid t mid, res = (Some cid, Some t, Some mid))
            /\ s <> r /\ ~ In true (firstn (List.length stmts) (faults w)))).
Proof.
  destruct (create_message_outcome s r c w) as (res & w' & stmts & E & T & _ & H).
  exists res, w', stmts. auto.
Qed.

Lemma create_message_all_or_nothing_witness :
  exists res w',
    create_message 2 1 [104; 105] fresh_world = (Return res, w')
    /\ (res = (None, None, None) \/ exists cid t mid, res = (Some cid, Some t, Some mid)).
Proof.
  destruct (create_message_all_or_nothing 2 1 [104; 105] fresh_world)
    as (res & w' & stmts & E & _ & H).
  exists res, w'. split; [exact E |].
  destruct H as [[H _] | [H _]]; [left | right]; exact H.
Defined.

(** On a healthy store a message between two distinct users is appended. *)
Lemma create_message_healthy (s r : Z) (c : str) (w : World) :
  s <> r -> faults w = [] ->
  exists cid t mid w',
    create_message s r c w = (Return (Some cid, Some t, Some mid), w')
    /\ faults w' = [].
Proof.
  intros Hne Hf.
  destruct (create_message_outcome s r c w) as (res & w' & stmts & E & _ & F & H).
  rewrite Hf in H, F. rewrite firstn_nil in H. rewrite skipn_nil in F.
  destruct H as [(_ & [H | []]) | ((cid & t & mid & ->) & _)]; [contradiction |].
  exists cid, t, mid, w'. split; assumption.
Qed.

(** C6. A successful [create_message sender receiver content] hands exactly
    two index upserts to the session, the sender's and then the receiver's.
    They mirror each other in [user_id] and [other_user_id] and agree on
    [last_message_time], on the conversation, on
    [last_message_sender_id = sender] and on the preview [content[:200]]. *)
Theorem append_writes_mirrored_index_entries
  (sender receiver : Z) (content : str) (w w' : World)
  (cid : UUID) (t : TimeUUID) (mid : UUID) :
  create_message sender receiver content w = (Return (Some cid, Some t, Some mid), w') ->
  exists stmts,
    trace w' = trace w ++ stmts
    /\ index_upserts stmts
       = [ {| ConversationsByUser.user_id := sender;
              ConversationsByUser.last_message_time := t;
              ConversationsByUser.conversation_id := cid;
              ConversationsByUser.other_user_id := receiver;
              ConversationsByUser.last_message_sender_id := sender;
              ConversationsByUser.last_message_content := firstn 200 content |};
           {| ConversationsByUser.user_id := receiver;
              ConversationsByUser.last_message_time := t;
              ConversationsByUser.conversation_id := cid;
              ConversationsByUser.other_user_id := sender;
              ConversationsByUser.last_message_sender_id := sender;
              ConversationsByUser.last_message_content := firstn 200 content |} ].
Proof.
  intros H. apply create_message_success in H.
  destruct H as (w1 & Hres & _ & R & _).
  apply resolve_trace in Hres.
  destruct Hres as [R1 | R1]; rewrite R, R1, <- app_assoc;
    eexists; (split; [reflexivity |]); reflexivity.
Qed.

Lemma append_writes_mirrored_index_entries_witness :
  exists w' stmts,
    trace w' = trace fresh_world ++ stmts
    /\ index_upserts stmts
       = [ ConversationsByUser.mk 2 (mkTimeUUID 122192928000010000 22 33) 11 1 2 [104; 105];
           ConversationsByUser.mk 1 (mkTimeUUID 122192928000010000 22 33) 11 2 2 [104; 105] ].
Proof.
  eexists.
  apply (append_writes_mirrored_index_entries 2 1 [104; 105] fresh_world _ 11
           (mkTimeUUID 122192928000010000 22 33) 44).
  vm_compute. reflexivity.
Defined.

(** ** Rows by key *)

Lemma timeuuid_eqb_refl (t : TimeUUID) : timeuuid_eqb t t = true.
Proof. unfold timeuuid_eqb. rewrite !Z.eqb_refl. reflexivity. Qed.

Section Upsert.

Variable R : Type.
Variable same_key : R -> R -> bool.
Variable p : R -> bool.
Variable r : R.

Lemma filter_upsert_same (l : list R) :
  (forall x, p x = same_key x r) -> p r = true ->
  filter p (upsert same_key r l) = [r].
Proof.
  intros Hp Hr. unfold upsert. simpl. rewrite Hr. f_equal.
  induction l as [| x l IH]; simpl; [reflexivity |].
  destruct (same_key x r) eqn:K; simpl; [exact IH |].
  rewrite Hp, K. exact IH.
Qed.

Lemma filter_upsert_other (l : list R) :
  p r = false -> (forall x, p x = true -> same_key x r = false) ->
  filter p (upsert same_key r l) = filter p l.
Proof.
  intros Hr Hp. unfold upsert. simpl. rewrite Hr.
  induction l as [| x l IH]; simpl; [reflexivity |].
  destruct (p x) eqn:P.
  - rewrite (Hp x P). simpl. rewrite P, IH. reflexivity.
  - destruct (same_key x r); simpl; [| rewrite P]; exact IH.
Qed.

End Upsert.

(** After the fan-out each participant has exactly one index row for the
    conversation, the one this append wrote, and the log has exactly one row
    at the new time key. *)
Lemma fanned_out_rows (cid : UUID) (t : TimeUUID) (mid : UUID) (s r : Z) (c : str)
  (tb : Tables) :
  s <> r ->
  index_entries s cid (fanned_out cid t mid s r c tb) = [sender_entry cid t s r c]
  /\ index_entries r cid (fanned_out cid t mid s r c tb) = [receiver_entry cid t s r c]
  /\ message_rows cid t (fanned_out cid t mid s r c tb) = [message_row cid t mid s r c].
Proof.
  intros Hne. unfold index_entries, message_rows, fanned_out.
  cbn [conversations_by_user messages_by_conversation].
  assert (Hsr : (s =? r) = false) by (apply Z.eqb_neq; exact Hne).
  assert (Hrs : (r =? s) = false) by (apply Z.eqb_neq; congruence).
  repeat split.
  - rewrite filter_upsert_other.
    + apply filter_upsert_same; simpl; [reflexivity |].
      rewrite !Z.eqb_refl. reflexivity.
    + simpl. rewrite Hrs. reflexivity.
    + intros x Hx. unfold same_index_key. simpl.
      apply andb_prop in Hx. destruct Hx as [Hu _].
      apply Z.eqb_eq in Hu. rewrite Hu, Hsr. reflexivity.
  - apply filter_upsert_same; simpl; [reflexivity |].
    rewrite !Z.eqb_refl. reflexivity.
  - apply filter_upsert_same; simpl; [reflexivity |].
    rewrite Z.eqb_refl, timeuuid_eqb_refl. reflexivity.
Qed.

(** C7. When [content] has more than 200 characters, a successful append
    leaves in the index of the sender and of the receiver a preview of
    exactly 200 characters, the first 200 of [content], while the row of the
    per-conversation log, as inserted and as stored, carries [content]
    whole. *)
Theorem long_content_is_cut_in_the_index_only
  (sender receiver : Z) (content : str) (w w' : World)
  (cid : UUID) (t : TimeUUID) (mid : UUID) :
  (200 < List.length content)%nat ->
  create_message sender receiver content w = (Return (Some cid, Some t, Some mid), w') ->
  List.length (firstn 200 content) = 200%nat
  /\ firstn 200 content <> content
  /\ (exists stmts,
        trace w' = trace w ++ stmts
        /\ map ConversationsByUser.last_message_content (index_upserts stmts)
           = [firstn 200 content; firstn 200 content]
        /\ map MessagesByConversation.content (message_inserts stmts) = [content])
  /\ map ConversationsByUser.last_message_content (index_entries sender cid (tables w'))
     = [firstn 200 content]
  /\ map ConversationsByUser.last_message_content (index_entries receiver cid (tables w'))
     = [firstn 200 content]
  /\ map MessagesByConversation.content (message_rows cid t (tables w')) = [content].
Proof.
  intros Hlen H.
  assert (L : List.length (firstn 200 content) = 200%nat)
    by (rewrite length_firstn; lia).
  split; [exact L |].
  split; [intros E; rewrite E in L; lia |].
  apply create_message_success in H.
  destruct H as (w1 & Hres & T & R & _).
  pose proof (resolve_stores _ _ _ _ _ Hres) as (Hne & _).
  split.
  - apply resolve_trace in Hres.
    destruct Hres as [R1 | R1]; rewrite R, R1, <- app_assoc;
      eexists; (split; [reflexivity |]); split; reflexivity.
  - rewrite T.
    destruct (fanned_out_rows cid t mid sender receiver content (tables w1) Hne)
      as (-> & -> & ->).
    repeat split.
Qed.

Lemma long_content_is_cut_in_the_index_only_witness :
  exists w',
    map ConversationsByUser.last_message_content (index_entries 2 11 (tables w'))
    = [repeat 97 200]
    /\ map MessagesByConversation.content
           (message_rows 11 (mkTimeUUID 122192928000010000 22 33) (tables w'))
       = [repeat 97 201].
Proof.
  eexists.
  refine ((fun H => conj (proj1 (proj2 (proj2 (proj2 H))))
                         (proj2 (proj2 (proj2 (proj2 (proj2 H))))))
            (long_content_is_cut_in_the_index_only 2 1 long_text fresh_world _ 11
               (mkTimeUUID 122192928000010000 22 33) 44 _ _)).
  - vm_compute. lia.
  - vm_compute. reflexivity.
Defined.

(** ** The read paths *)

Lemma In_skipn_in (A : Type) (n : nat) (l : list A) (x : A) : In x (skipn n l) -> In x l.
Proof.
  intros H. rewrite <- (firstn_skipn n l). apply in_or_app. right. exact H.
Qed.

Lemma In_firstn_in (A : Type) (n : nat) (l : list A) (x : A) : In x (firstn n l) -> In x l.
Proof.
  intros H. rewrite <- (firstn_skipn n l). apply in_or_app. left. exact H.
Qed.

(** A page holds rows of the scan it pages over. *)
Lemma In_page (A : Type) (fetch_size : Z) (state : option nat) (l : list A) (x : A) :
  In x (ResultSet.current_rows (page fetch_size state l)) -> In x l.
Proof.
  unfold page. destruct (fetch_size <=? 0); simpl; intros H.
  - eapply In_skipn_in, H.
  - eapply In_skipn_in, In_firstn_in, H.
Qed.

(** A read whose [session.execute] raises. *)
Lemma read_fault (A : Type) (s : Statement) (k : ResultOf s -> M (list A * option nat))
  (w : World) :
  fate w = true ->
  try_except (bind (session_execute s) k) (fun _ => ret ([], None)) w
  = (Return ([], None), executed s w).
Proof.
  intros F. unfold try_except.
  erewrite bind_raise by (apply execute_fault; exact F). reflexivity.
Qed.

(** A read whose [session.execute] goes through. *)
Lemma read_ok (A : Type) (s : Statement) (f : ResultOf s -> list A * option nat)
  (w : World) :
  fate w = false ->
  try_except (bind (session_execute s) (fun rs => ret (f rs))) (fun _ => ret ([], None)) w
  = (Return (f (fst (run s (tables w)))),
     with_tables (snd (run s (tables w))) (executed s w)).
Proof.
  intros F. unfold try_except.
  erewrite bind_run by (apply execute_ok; exact F). reflexivity.
Qed.

(** [uuid_from_time] either returns a key, leaving the store and the
    session as they are, or raises [OverflowError] for a [datetime] without
    UTC value, leaving the world as it is. *)
Lemma uuid_from_time_cases (time_arg : Datetime.t) (w : World) :
  (exists key w0,
      uuid_from_time time_arg w = (Return key, w0)
      /\ tables w0 = tables w /\ faults w0 = faults w /\ trace w0 = trace w)
  \/ (Datetime.timegm_utctimetuple time_arg = None
      /\ uuid_from_time time_arg w = (Raise OverflowError, w)).
Proof.
  destruct (Datetime.timegm_utctimetuple time_arg) as [seconds |] eqn:E.
  - left. destruct (quiet_uuid_from_time_seconds time_arg seconds E w)
      as (key & w0 & H & T). exists key, w0. split; assumption.
  - right. split; [reflexivity |]. unfold uuid_from_time. rewrite E. reflexivity.
Qed.

Lemma uuid_from_time_Return (time_arg : Datetime.t) (w w0 : World) (key : TimeUUID) :
  uuid_from_time time_arg w = (Return key, w0) ->
  tables w0 = tables w /\ faults w0 = faults w /\ trace w0 = trace w.
Proof.
  intros H. destruct (uuid_from_time_cases time_arg w)
    as [(key' & w1 & E & T) | (_ & E)]; rewrite E in H; inversion H; subst.
  exact T.
Qed.

Lemma uuid_from_time_Raise (time_arg : Datetime.t) (w w0 : World) (e : exn) :
  uuid_from_time time_arg w = (Raise e, w0) ->
  e = OverflowError /\ w0 = w /\ Datetime.timegm_utctimetuple time_arg = None.
Proof.
  intros H. destruct (uuid_from_time_cases time_arg w)
    as [(key' & w1 & E & T) | (N & E)]; rewrite E in H; inversion H; subst.
  auto.
Qed.

(** [get_messages_before_timestamp] once the key is derived: the read
    proper, on the world the derivation left. *)
Lemma before_read_unfold (conversation_id : UUID) (before_timestamp : Datetime.t)
  (page_size : Z) (paging_state : option nat) (w w0 : World) (key : TimeUUID) :
  uuid_from_time before_timestamp w = (Return key, w0) ->
  get_messages_before_timestamp conversation_id before_timestamp page_size paging_state w
  = try_except
      (bind (session_execute
               (SelectMessagesBefore conversation_id key page_size paging_state))
            (fun results =>
               ret (map with_created_at (ResultSet.current_rows results),
                    ResultSet.paging_state results)))
      (fun _ => ret ([], None)) w0.
Proof.
  intros E. unfold get_messages_before_timestamp. erewrite bind_run by exact E.
  reflexivity.
Qed.

(** C8. [get_messages_before_timestamp] derives the time key
    [before_timeuuid] from [before_timestamp] with [uuid_from_time], hands it
    to the session in its SELECT, and returns only stored messages of the
    conversation whose [message_time] is strictly below that key in the
    order of the time keys.  When the derivation raises, which it does only
    with [OverflowError] for a [datetime] without UTC value, the exception
    is the outcome and no message is returned; for every other [datetime]
    the derivation returns. *)
Theorem messages_before_are_strictly_before
  (conversation_id : UUID) (before_timestamp : Datetime.t) (page_size : Z)
  (paging_state : option nat) (w : World) :
  (forall before_timeuuid w0,
      uuid_from_time before_timestamp w = (Return before_timeuuid, w0) ->
      exists messages next_paging_state w',
        get_messages_before_timestamp conversation_id before_timestamp
                                      page_size paging_state w
        = (Return (messages, next_paging_state), w')
        /\ trace w' = trace w ++ [SelectMessagesBefore conversation_id before_timeuuid
                                                       page_size paging_state]
        /\ forall msg,
            In msg messages ->
            In (columns msg) (messages_by_conversation (tables w))
            /\ MessagesByConversation.conversation_id (columns msg) = conversation_id
            /\ timeuuid_ltb (MessagesByConversation.message_time (columns msg))
                            before_timeuuid = true)
  /\ (forall e w0,
        uuid_from_time before_timestamp w = (Raise e, w0) ->
        e = OverflowError
        /\ get_messages_before_timestamp conversation_id before_timestamp
                                         page_size paging_state w
           = (Raise OverflowError, w))
  /\ (forall seconds,
        Datetime.timegm_utctimetuple before_timestamp = Some seconds ->
        exists before_timeuuid w0,
          uuid_from_time before_timestamp w = (Return before_timeuuid, w0)).
Proof.
  split; [| split].
  - intros before w0 E.
    rewrite (before_read_unfold _ _ _ _ _ _ _ E).
    apply uuid_from_time_Return in E. destruct E as (T & F & R).
    destruct (fate w0) eqn:F0.
    + do 3 eexists. split; [apply read_fault; exact F0 |].
      split; [simpl; rewrite R; reflexivity | intros msg []].
    + do 3 eexists. split.
      * apply (read_ok _ (SelectMessagesBefore conversation_id before page_size paging_state)
                       (fun results =>
                          (map with_created_at (ResultSet.current_rows results),
                           ResultSet.paging_state results))).
        exact F0.
      * split; [simpl; rewrite R; reflexivity |].
        intros msg Hin. simpl in Hin. apply in_map_iff in Hin.
        destruct Hin as (row & <- & Hin). apply In_page in Hin.
        apply filter_In in Hin. destruct Hin as (Hin & Hp).
        apply andb_prop in Hp. destruct Hp as (Hc & Hlt).
        rewrite <- T. simpl. split; [exact Hin |].
        split; [apply Z.eqb_eq; exact Hc | exact Hlt].
  - intros e w0 E. pose proof (uuid_from_time_Raise _ _ _ _ E) as (-> & -> & _).
    split; [reflexivity |]. unfold get_messages_before_timestamp.
    apply bind_raise. exact E.
  - intros seconds E.
    destruct (quiet_uuid_from_time_seconds before_timestamp seconds E w)
      as (key & w0 & H & _). exists key, w0. exact H.
Qed.

Lemma messages_before_are_strictly_before_witness :
  exists messages w',
    get_messages_before_timestamp 11 (Datetime.naive 3000) 20 None three_messages
    = (Return (messages, None), w')
    /\ forall msg,
        In msg messages ->
        timeuuid_ltb (MessagesByConversation.message_time (columns msg))
                     (mkTimeUUID 122192928000030000 22 33) = true.
Proof.
  assert (E : uuid_from_time (Datetime.naive 3000) three_messages
              = (Return (mkTimeUUID 122192928000030000 22 33),
                 snd (uuid_from_time (Datetime.naive 3000) three_messages)))
    by (vm_compute; reflexivity).
  destruct (proj1 (messages_before_are_strictly_before
                     11 (Datetime.naive 3000) 20 None three_messages) _ _ E)
    as (messages & next & w' & G & _ & H).
  assert (G' := G). vm_compute in G'. inversion G' as [[Hm Hn Hw]].
  exists messages, w'. split.
  - rewrite G, <- Hn. reflexivity.
  - intros msg Hin. apply (H msg Hin).
Defined.

(** The bound is on the key, not on the clock: of the two messages written
    in the tick of the bound, the one with the smaller tie-breaker is
    returned. *)
Example same_tick_message_is_returned :
  map MessageModel.id
      (fst (match fst (get_messages_before_timestamp 11 (Datetime.naive 3000) 20 None
                                                     three_messages) with
            | Return res => res
            | Raise _ => ([], None)
            end))
  = [Some 1; Some 2].
Proof. reflexivity. Qed.

(** A bound without UTC value: the [OverflowError] of the key derivation is
    the outcome, and the session is not reached. *)
Example bound_without_utc_value_raises :
  get_messages_before_timestamp 11 before_year_one 20 None three_messages
  = (Raise OverflowError, three_messages).
Proof. reflexivity. Qed.



(** ** The index across a sequence of appends *)

Lemma between_canonical (a b s r : Z) (c : str) :
  between a b (s, r, c) ->
  Z.min s r = Z.min a b /\ Z.max s r = Z.max a b.
Proof. unfold between. lia. Qed.

Lemma stored_fanned_out (x y : Z) (cid : UUID) (t : TimeUUID) (mid : UUID) (s r : Z)
  (c : str) (tb : Tables) :
  stored_conversation x y (fanned_out cid t mid s r c tb) = stored_conversation x y tb.
Proof. reflexivity. Qed.

(** After a successful append the pair is stored under the identifier the
    append returned. *)
Lemma append_stores (a b s r : Z) (c : str) (w w' : World)
  (cid : UUID) (t : TimeUUID) (mid : UUID) :
  between a b (s, r, c) ->
  create_message s r c w = (Return (Some cid, Some t, Some mid), w') ->
  exists row,
    stored_conversation (Z.min a b) (Z.max a b) (tables w') = Some row
    /\ ConversationByUsers.conversation_id row = cid.
Proof.
  intros Hb H. apply between_canonical in Hb. destruct Hb as (<- & <-).
  apply create_message_success in H. destruct H as (w1 & Hres & T & _).
  apply resolve_stores in Hres. destruct Hres as (_ & row & S & Hc).
  exists row. rewrite T, stored_fanned_out. split; assumption.
Qed.

(** An append between a pair that is already stored returns the stored
    identifier and leaves it stored. *)
Lemma append_known (a b s r : Z) (c : str) (w w' : World)
  (cid : UUID) (t : TimeUUID) (mid : UUID) (row : ConversationByUsers.row) :
  between a b (s, r, c) ->
  stored_conversation (Z.min a b) (Z.max a b) (tables w) = Some row ->
  create_message s r c w = (Return (Some cid, Some t, Some mid), w') ->
  cid = ConversationByUsers.conversation_id row
  /\ stored_conversation (Z.min a b) (Z.max a b) (tables w') = Some row.
Proof.
  intros Hb S H. apply between_canonical in Hb. destruct Hb as (Emin & Emax).
  rewrite <- Emin, <- Emax in *.
  apply create_message_success in H. destruct H as (w1 & Hres & T & _).
  pose proof (resolve_stores _ _ _ _ _ Hres) as (Hne & _).
  rewrite (resolve_known s r w row Hne S) in Hres.
  destruct (fate w); inversion Hres; subst.
  rewrite T, stored_fanned_out. split; [reflexivity | exact S].
Qed.

Lemma append_all_known (a b : Z) (row : ConversationByUsers.row)
  (msgs : list (Z * Z * str)) :
  Forall (between a b) msgs ->
  forall w results w',
    stored_conversation (Z.min a b) (Z.max a b) (tables w) = Some row ->
    append_all msgs w = Some (results, w') ->
    Forall (fun x => fst (fst x) = ConversationByUsers.conversation_id row) results
    /\ stored_conversation (Z.min a b) (Z.max a b) (tables w') = Some row.
Proof.
  induction 1 as [| [[s r] c] rest Hb _ IH]; intros w results w' S H; simpl in H.
  - inversion H; subst. split; [constructor | exact S].
  - destruct (create_message s r c w) as [[[[[cid |] [t |]] [mid |]] | e] w1] eqn:E;
      try discriminate H.
    destruct (append_known a b s r c w w1 cid t mid row Hb S E) as (-> & S1).
    destruct (append_all rest w1) as [[res w2] |] eqn:A; [| discriminate H].
    inversion H; subst. destruct (IH w1 res w' S1 A) as (Hall & S2).
    split; [constructor; [reflexivity | exact Hall] | exact S2].
Qed.

(** Every append of a non-empty sequence between [a] and [b] returns the
    identifier that is stored for the pair at the end. *)
Lemma append_all_same_conversation (a b : Z) (msgs : list (Z * Z * str))
  (w w' : World) (results : list (UUID * TimeUUID * UUID)) :
  Forall (between a b) msgs -> msgs <> [] ->
  append_all msgs w = Some (results, w') ->
  exists row,
    stored_conversation (Z.min a b) (Z.max a b) (tables w') = Some row
    /\ Forall (fun x => fst (fst x) = ConversationByUsers.conversation_id row) results.
Proof.
  intros Hall Hne H. destruct msgs as [| [[s r] c] rest]; [contradiction |].
  inversion Hall as [| m l Hb Hrest]; subst. simpl in H.
  destruct (create_message s r c w) as [[[[[cid |] [t |]] [mid |]] | e] w1] eqn:E;
    try discriminate H.
  destruct (append_stores a b s r c w w1 cid t mid Hb E) as (row & S & <-).
  destruct (append_all rest w1) as [[res w2] |] eqn:A; [| discriminate H].
  inversion H; subst.
  destruct (append_all_known a b row rest Hrest w1 res w' S A) as (Hres & S').
  exists row. split; [exact S' |]. constructor; [reflexivity | exact Hres].
Qed.

Lemma filter_map_comm (A B : Type) (f : A -> B) (q : B -> bool) (l : list A) :
  filter q (map f l) = map f (filter (fun x => q (f x)) l).
Proof.
  induction l as [| x l IH]; simpl; [reflexivity |].
  destruct (q (f x)); simpl; rewrite IH; reflexivity.
Qed.

Lemma filter_twice (A : Type) (p q : A -> bool) (l : list A) :
  filter q (filter p l) = filter (fun x => p x && q x) l.
Proof.
  induction l as [| x l IH]; simpl; [reflexivity |].
  destruct (p x); simpl; [destruct (q x) |]; rewrite IH; reflexivity.
Qed.

Lemma length_filter_firstn (A : Type) (q : A -> bool) (n : nat) (l : list A) :
  (List.length (filter q (firstn n l)) <= List.length (filter q l))%nat.
Proof.
  rewrite <- (firstn_skipn n l) at 2. rewrite filter_app, length_app. lia.
Qed.

Lemma length_filter_skipn (A : Type) (q : A -> bool) (n : nat) (l : list A) :
  (List.length (filter q (skipn n l)) <= List.length (filter q l))%nat.
Proof.
  rewrite <- (firstn_skipn n l) at 2. rewrite filter_app, length_app. lia.
Qed.

Lemma length_filter_page (A : Type) (q : A -> bool) (fetch_size : Z)
  (state : option nat) (l : list A) :
  (List.length (filter q (ResultSet.current_rows (page fetch_size state l)))
   <= List.length (filter q l))%nat.
Proof.
  unfold page. destruct (fetch_size <=? 0); simpl.
  - apply length_filter_skipn.
  - etransitivity; [apply length_filter_firstn | apply length_filter_skipn].
Qed.

(** A page of the listing of user [u], when the index holds the single row
    [row] for [(u, cid)]: at most one summary is about [cid], and it is the
    summary of [row]. *)
Lemma listing_of_single_entry (u : Z) (cid : UUID) (row : ConversationsByUser.row)
  (w : World) (page_size : Z) (paging_state : option nat) :
  index_entries u cid (tables w) = [row] ->
  exists convs next w',
    get_user_conversations u page_size paging_state w = (Return (convs, next), w')
    /\ (List.length (filter (is_conversation cid) convs) <= 1)%nat
    /\ forall e, In e convs -> id e = Some cid -> e = format u row.
Proof.
  intros Hrow. unfold get_user_conversations.
  destruct (fate w) eqn:F.
  - do 3 eexists. split; [apply read_fault; exact F |].
    split; [simpl; lia | intros e []].
  - do 3 eexists. split.
    + apply (read_ok _ (SelectConversationsByUser u page_size paging_state)
                     (fun results =>
                        (map (format u) (ResultSet.current_rows results),
                         ResultSet.paging_state results))).
      exact F.
    + simpl. split.
      * rewrite filter_map_comm, length_map.
        etransitivity; [apply length_filter_page |].
        rewrite filter_twice. unfold index_entries in Hrow.
        unfold is_conversation, format, get. simpl. rewrite Hrow. simpl. lia.
      * intros e Hin Hid. apply in_map_iff in Hin. destruct Hin as (x & <- & Hin).
        apply In_page in Hin. apply filter_In in Hin. destruct Hin as (Hin & Hu).
        unfold format, get in Hid. simpl in Hid. inversion Hid as [Hc].
        assert (Hx : In x (index_entries u cid (tables w))).
        { unfold index_entries. apply filter_In. split; [exact Hin |].
          rewrite Hu, Hc, Z.eqb_refl. reflexivity. }
        rewrite Hrow in Hx. destruct Hx as [<- | []]. reflexivity.
Qed.

(** On a healthy store every message of a sequence between two distinct
    users is appended, and the store is as healthy afterwards. *)
Lemma append_all_healthy (a b : Z) (msgs : list (Z * Z * str)) :
  a <> b -> Forall (between a b) msgs ->
  forall w, faults w = [] ->
  exists results w', append_all msgs w = Some (results, w') /\ faults w' = [].
Proof.
  intros Hab. induction 1 as [| [[s r] c] rest Hb _ IH]; intros w Hf.
  - exists [], w. split; [reflexivity | exact Hf].
  - assert (Hne : s <> r) by (unfold between in Hb; lia).
    destruct (create_message_healthy s r c w Hne Hf) as (cid & t & mid & w1 & E & Hf1).
    destruct (IH w1 Hf1) as (results & w' & A & Hf').
    exists ((cid, t, mid) :: results), w'. simpl. rewrite E, A. auto.
Qed.

(** C2. Take any sequence of successful appends between [a] and [b] and one
    more successful append [(s, r, c)] between them.  All of them are
    appends to one conversation [cid], and afterwards the index of each
    participant [u] holds exactly one row for [(u, cid)], the row of this
    last message, whatever the earlier appends wrote; every page of
    [get_user_conversations u] has at most one summary of [cid], and that
    summary is the one of the last message.  The last append hands the two
    upserts of these rows to the session, and any other row the index held
    for [(u, cid)] before it, the one of the message before included, is in
    the index no more.  On a healthy store, for [a <> b], the appends do
    succeed. *)
Theorem index_keeps_only_the_latest_message
  (a b : Z) (earlier : list (Z * Z * str)) (s r : Z) (c : str) (w : World) :
  Forall (between a b) earlier ->
  between a b (s, r, c) ->
  (forall (w1 w' : World) (results : list (UUID * TimeUUID * UUID))
          (cid : UUID) (t : TimeUUID) (mid : UUID),
      append_all earlier w = Some (results, w1) ->
      create_message s r c w1 = (Return (Some cid, Some t, Some mid), w') ->
      Forall (fun x => fst (fst x) = cid) results
      /\ (forall u,
             u = a \/ u = b ->
             index_entries u cid (tables w')
             = [ {| ConversationsByUser.user_id := u;
                    ConversationsByUser.last_message_time := t;
                    ConversationsByUser.conversation_id := cid;
                    ConversationsByUser.other_user_id := if u =? s then r else s;
                    ConversationsByUser.last_message_sender_id := s;
                    ConversationsByUser.last_message_content := firstn 200 c |} ]
             /\ forall page_size paging_state,
                 exists convs next w'',
                   get_user_conversations u page_size paging_state w'
                   = (Return (convs, next), w'')
                   /\ (List.length (filter (is_conversation cid) convs) <= 1)%nat
                   /\ forall e,
                       In e convs -> id e = Some cid ->
                       e = {| id := Some cid;
                              user1_id := u;
                              user2_id := Some (if u =? s then r else s);
                              last_message_at :=
                                Some (UtcFromTimestamp (tu_time t) 1000000000);
                              last_message_content := Some (firstn 200 c) |})
      /\ (exists stmts,
             trace w' = trace w1 ++ stmts
             /\ index_upserts stmts
                = [ {| ConversationsByUser.user_id := s;
                       ConversationsByUser.last_message_time := t;
                       ConversationsByUser.conversation_id := cid;
                       ConversationsByUser.other_user_id := r;
                       ConversationsByUser.last_message_sender_id := s;
                       ConversationsByUser.last_message_content := firstn 200 c |};
                    {| ConversationsByUser.user_id := r;
                       ConversationsByUser.last_message_time := t;
                       ConversationsByUser.conversation_id := cid;
                       ConversationsByUser.other_user_id := s;
                       ConversationsByUser.last_message_sender_id := s;
                       ConversationsByUser.last_message_content := firstn 200 c |} ])
      /\ (forall u old,
             u = a \/ u = b ->
             In old (conversations_by_user (tables w1)) ->
             ConversationsByUser.user_id old = u ->
             ConversationsByUser.conversation_id old = cid ->
             old <> {| ConversationsByUser.user_id := u;
                       ConversationsByUser.last_message_time := t;
                       ConversationsByUser.conversation_id := cid;
                       ConversationsByUser.other_user_id := if u =? s then r else s;
                       ConversationsByUser.last_message_sender_id := s;
                       ConversationsByUser.last_message_content := firstn 200 c |} ->
             ~ In old (conversations_by_user (tables w'))))
  /\ (a <> b -> faults w = [] ->
      exists w1 w' results cid t mid,
        append_all earlier w = Some (results, w1)
        /\ create_message s r c w1 = (Return (Some cid, Some t, Some mid), w')).
Proof.
  intros Hall Hb. split.
  - intros w1 w' results cid t mid Hseq Hlast.
    pose proof (create_message_success _ _ _ _ _ _ _ _ Hlast) as (w2 & Hres & T & R & _).
    pose proof (resolve_stores _ _ _ _ _ Hres) as (Hne & _).
    destruct (fanned_out_rows cid t mid s r c (tables w2) Hne) as (Hs & Hr & _).
    rewrite <- T in Hs, Hr.
    assert (Hrow : forall u, u = a \/ u = b ->
               index_entries u cid (tables w')
               = [ConversationsByUser.mk u t cid (if u =? s then r else s) s
                                         (firstn 200 c)]).
    { intros u Hu.
      assert (Hus : u = s \/ u = r) by (unfold between in Hb; lia).
      destruct Hus as [-> | ->].
      - rewrite Z.eqb_refl. exact Hs.
      - assert (E : (r =? s) = false) by (apply Z.eqb_neq; congruence).
        rewrite E. exact Hr. }
    split; [| split; [| split]].
    + destruct earlier as [| m rest].
      * simpl in Hseq. inversion Hseq. constructor.
      * assert (Hnil : m :: rest <> []) by discriminate.
        destruct (append_all_same_conversation a b (m :: rest) w w1 results Hall Hnil Hseq)
          as (row & S & Hsame).
        destruct (append_known a b s r c w1 w' cid t mid row Hb S Hlast) as (-> & _).
        exact Hsame.
    + intros u Hu. split; [apply Hrow, Hu |].
      intros page_size paging_state.
      apply (listing_of_single_entry u cid _ w' page_size paging_state (Hrow u Hu)).
    + apply resolve_trace in Hres.
      destruct Hres as [R1 | R1]; rewrite R, R1, <- app_assoc;
        eexists; (split; [reflexivity |]); reflexivity.
    + intros u old Hu _ Hou Hoc Hdiff Hin.
      assert (Hf : In old (index_entries u cid (tables w'))).
      { unfold index_entries. apply filter_In. split; [exact Hin |].
        rewrite Hou, Hoc, !Z.eqb_refl. reflexivity. }
      rewrite (Hrow u Hu) in Hf. destruct Hf as [E | []]. apply Hdiff. symmetry. exact E.
  - intros Hab Hf.
    destruct (append_all_healthy a b earlier Hab Hall w Hf) as (results & w1 & A & Hf1).
    assert (Hne : s <> r) by (unfold between in Hb; lia).
    destruct (create_message_healthy s r c w1 Hne Hf1) as (cid & t & mid & w' & E & _).
    exists w1, w', results, cid, t, mid. split; assumption.
Qed.

(** Two messages from 1 to 2 and back, then a third from 1 to 2. *)
Lemma index_keeps_only_the_latest_message_witness :
  exists w',
    index_entries 2 11 (tables w')
    = [ConversationsByUser.mk 2 (mkTimeUUID 122192928000030000 88 99) 11 1 1 [99]]
    /\ index_entries 1 11 (tables w')
       = [ConversationsByUser.mk 1 (mkTimeUUID 122192928000030000 88 99) 11 2 1 [99]].
Proof.
  eexists.
  assert (H1 : Forall (between 1 2) [(1, 2, [97]); (2, 1, [98])]).
  { repeat constructor; simpl; lia. }
  assert (H2 : between 1 2 (1, 2, [99])) by (simpl; lia).
  refine ((fun H => conj (proj1 (proj1 (proj2 H) 2 (or_intror eq_refl)))
                         (proj1 (proj1 (proj2 H) 1 (or_introl eq_refl))))
            (proj1 (index_keeps_only_the_latest_message
                      1 2 [(1, 2, [97]); (2, 1, [98])] 1 2 [99] fresh_world H1 H2)
                   _ _ _ 11 (mkTimeUUID 122192928000030000 88 99) 110 _ _)).
  - vm_compute. reflexivity.
  - vm_compute. reflexivity.
Defined.

(** * Further properties *)

(** ** [create_or_get_conversation] *)

Lemma create_or_get_conversation_Some (a b : Z) (w w1 : World) (cid : UUID) :
  create_or_get_conversation a b w = (Return (Some cid), w1) ->
  _get_or_create_conversation_id a b w = (Return cid, w1).
Proof.
  unfold create_or_get_conversation, try_except, bind.
  destruct (_get_or_create_conversation_id a b w) as [[x | e] w0];
    unfold ret; intros H; inversion H; reflexivity.
Qed.



(** X2. [create_or_get_conversation] and [create_message] name the same
    conversation.  When the first returns an identifier for [a] and [b], a
    message sent afterwards between them, in either direction, goes to that
    conversation; and after a message between them was appended,
    [create_or_get_conversation] returns the identifier of that message's
    conversation, or [None] when its SELECT fails, and writes nothing. *)
Theorem conversation_id_shared_with_append (a b s r : Z) (c : str) (w : World) :
  between a b (s, r, c) ->
  (forall w1 w' cid cid' t mid,
      create_or_get_conversation a b w = (Return (Some cid), w1) ->
      create_message s r c w1 = (Return (Some cid', Some t, Some mid), w') ->
      cid' = cid)
  /\ (forall w1 w' cid t mid res,
        create_message s r c w = (Return (Some cid, Some t, Some mid), w1) ->
        create_or_get_conversation a b w1 = (Return res, w') ->
        (res = Some cid \/ res = None) /\ tables w' = tables w1).
Proof.
  intros Hb. split.
  - intros w1 w' cid cid' t mid Hget Happ.
    apply create_or_get_conversation_Some in Hget.
    apply resolve_stores in Hget. destruct Hget as (_ & row & S & <-).
    apply (append_known a b s r c w1 w' cid' t mid row Hb S Happ).
  - intros w1 w' cid t mid res Happ Hget.
    destruct (append_stores a b s r c w w1 cid t mid Hb Happ) as (row & S & <-).
    apply create_message_success in Happ. destruct Happ as (w0 & Hres & _).
    apply resolve_stores in Hres. destruct Hres as (Hsr & _).
    assert (Hne : a <> b) by (unfold between in Hb; lia).
    unfold create_or_get_conversation, try_except, bind in Hget.
    rewrite (resolve_known a b w1 row Hne S) in Hget.
    destruct (fate w1); unfold ret in Hget; inversion Hget; subst; simpl; auto.
Qed.

Lemma conversation_id_shared_with_append_witness :
  exists w1 w' cid cid',
    create_or_get_conversation 1 2 fresh_world = (Return (Some cid), w1)
    /\ create_message 2 1 [104; 105] w1
       = (Return (Some cid', Some (mkTimeUUID 122192928000010000 22 33), Some 44), w')
    /\ cid' = cid.
Proof.
  assert (Hb : between 1 2 (2, 1, [104; 105])) by (simpl; lia).
  exists (snd (create_or_get_conversation 1 2 fresh_world)).
  exists (snd (create_message 2 1 [104; 105]
                              (snd (create_or_get_conversation 1 2 fresh_world)))).
  exists 11, 11.
  assert (E1 : create_or_get_conversation 1 2 fresh_world
               = (Return (Some 11), snd (create_or_get_conversation 1 2 fresh_world)))
    by (vm_compute; reflexivity).
  assert (E2 : create_message 2 1 [104; 105]
                              (snd (create_or_get_conversation 1 2 fresh_world))
               = (Return (Some 11, Some (mkTimeUUID 122192928000010000 22 33), Some 44),
                  snd (create_message 2 1 [104; 105]
                                      (snd (create_or_get_conversation 1 2 fresh_world)))))
    by (vm_compute; reflexivity).
  split; [exact E1 |]. split; [exact E2 |].
  exact (proj1 (conversation_id_shared_with_append 1 2 2 1 [104; 105] fresh_world Hb)
               _ _ _ _ _ _ E1 E2).
Defined.

(** ** What the writers keep *)

Lemma keeps_ret (A : Type) (P : Tables -> Prop) (a : A) : keeps P (ret a).
Proof. intros w r w' H HP. inversion H; subst. exact HP. Qed.

Lemma keeps_quiet (A : Type) (P : Tables -> Prop) (m : M A) : quiet m -> keeps P m.
Proof.
  intros Q w r w' H HP. destruct (Q w) as (a & w0 & E & T & _).
  rewrite E in H. inversion H; subst. rewrite T. exact HP.
Qed.

Lemma keeps_execute (P : Tables -> Prop) (s : Statement) :
  (forall tb, P tb -> P (snd (run s tb))) -> keeps P (session_execute s).
Proof.
  intros Hs w r w' H HP. unfold session_execute in H.
  destruct (fate w); inversion H; subst; simpl; auto.
Qed.

Lemma keeps_bind (A B : Type) (P : Tables -> Prop) (m : M A) (k : A -> M B) :
  keeps P m -> (forall a, keeps P (k a)) -> keeps P (bind m k).
Proof.
  intros Hm Hk w r w' H HP. unfold bind in H.
  destruct (m w) as [[a | e] w1] eqn:E.
  - apply (Hk a w1 r w' H). apply (Hm w _ _ E HP).
  - inversion H; subst. apply (Hm w _ _ E HP).
Qed.

Lemma keeps_try_except (A : Type) (P : Tables -> Prop) (body : M A) (failure : A) :
  keeps P body -> keeps P (try_except body (fun _ => ret failure)).
Proof.
  intros Hb w r w' H HP. unfold try_except in H.
  destruct (body w) as [[a | e] w1] eqn:E.
  - inversion H; subst. apply (Hb w _ _ E HP).
  - unfold ret in H. inversion H; subst. apply (Hb w _ _ E HP).
Qed.

(** Whatever its outcome, [_get_or_create_conversation_id] leaves the log
    and the index alone, and [conversation_by_users] either as it was or with
    one row added for a canonical pair that had none. *)
Lemma resolve_effect (u1 u2 : Z) (w w' : World) (r : outcome UUID) :
  _get_or_create_conversation_id u1 u2 w = (r, w') ->
  messages_by_conversation (tables w') = messages_by_conversation (tables w)
  /\ conversations_by_user (tables w') = conversations_by_user (tables w)
  /\ (conversation_by_users (tables w') = conversation_by_users (tables w)
      \/ (u1 <> u2
          /\ stored_conversation (Z.min u1 u2) (Z.max u1 u2) (tables w) = None
          /\ exists cid,
              r = Return cid
              /\ conversation_by_users (tables w')
                 = upsert same_pair (ConversationByUsers.mk (Z.min u1 u2) (Z.max u1 u2) cid)
                          (conversation_by_users (tables w)))).
Proof.
  unfold _get_or_create_conversation_id.
  destruct (Z.eqb_spec u1 u2) as [E | Hne].
  - intros H. inversion H; subst. auto.
  - unfold bind at 1. unfold session_execute at 1.
    destruct (fate w) eqn:F.
    + intros H. inversion H; subst. simpl. auto.
    + rewrite one_select_conversation.
      destruct (stored_conversation (Z.min u1 u2) (Z.max u1 u2) (tables w)) as [row |] eqn:S.
      * intros H. inversion H; subst. simpl. auto.
      * unfold bind, uuid4, getrandbits, bind, next_random, ret, session_execute.
        match goal with |- context [if fate ?x then _ else _] => destruct (fate x) end;
          intros H; inversion H; subst; simpl; auto.
        repeat split. right. split; [exact Hne |]. split; [reflexivity |].
        eexists. split; reflexivity.
Qed.

Lemma stored_upsert_other (a b x y : Z) (cid : UUID) (row : ConversationByUsers.row)
  (tb : Tables) :
  stored_conversation a b tb = None ->
  stored_conversation x y tb = Some row ->
  hd_error (filter (fun r => (ConversationByUsers.user_a_id r =? x)
                             && (ConversationByUsers.user_b_id r =? y))
                   (upsert same_pair (ConversationByUsers.mk a b cid)
                           (conversation_by_users tb)))
  = Some row.
Proof.
  intros Hab Hxy.
  assert (Hdiff : (a =? x) && (b =? y) = false).
  { destruct ((a =? x) && (b =? y)) eqn:E; [| reflexivity].
    apply andb_prop in E. destruct E as (Ea & Eb).
    apply Z.eqb_eq in Ea. apply Z.eqb_eq in Eb. subst. congruence. }
  rewrite filter_upsert_other.
  - exact Hxy.
  - exact Hdiff.
  - intros z Hz. apply andb_prop in Hz. destruct Hz as (Ea & Eb).
    apply Z.eqb_eq in Ea. apply Z.eqb_eq in Eb.
    unfold same_pair. simpl. rewrite Ea, Eb, (Z.eqb_sym x a), (Z.eqb_sym y b).
    exact Hdiff.
Qed.

Lemma keeps_stored_resolve (x y : Z) (row : ConversationByUsers.row) (u1 u2 : Z) :
  keeps (fun tb => stored_conversation x y tb = Some row)
        (_get_or_create_conversation_id u1 u2).
Proof.
  intros w r w' H HP. apply resolve_effect in H.
  destruct H as (_ & _ & [E | (_ & S & cid & _ & E)]); unfold stored_conversation.
  - rewrite E. exact HP.
  - rewrite E. apply stored_upsert_other; assumption.
Qed.

Lemma keeps_stored_append_steps (x y : Z) (row : ConversationByUsers.row)
  (s r : Z) (c : str) :
  keeps (fun tb => stored_conversation x y tb = Some row) (append_steps s r c).
Proof.
  unfold append_steps.
  apply keeps_bind; [apply keeps_stored_resolve |]. intros cid.
  apply keeps_bind; [apply keeps_quiet, quiet_utcnow |]. intros now.
  apply keeps_bind; [apply keeps_quiet, quiet_uuid_from_time |]. intros t.
  apply keeps_bind; [apply keeps_quiet, quiet_uuid4 |]. intros mid.
  repeat (apply keeps_bind; [apply keeps_execute; intros tb Htb; exact Htb |]; intros _).
  apply keeps_ret.
Qed.

(** X3. An identifier stored for a pair of users is never replaced: no call
    of [create_message] or of [create_or_get_conversation], for any users
    and whatever its outcome, changes the row that the lookup on the pair
    [(x, y)] finds. *)
Theorem stored_identity_is_never_changed
  (x y : Z) (row : ConversationByUsers.row) (w : World) :
  stored_conversation x y (tables w) = Some row ->
  (forall s r c res w',
      create_message s r c w = (res, w') ->
      stored_conversation x y (tables w') = Some row)
  /\ (forall a b res w',
        create_or_get_conversation a b w = (res, w') ->
        stored_conversation x y (tables w') = Some row).
Proof.
  intros HP. split.
  - intros s r c res w' H.
    rewrite create_message_unfold in H.
    apply (keeps_try_except _ _ _ _ (keeps_stored_append_steps x y row s r c) w res w' H HP).
  - intros a b res w' H. unfold create_or_get_conversation in H.
    assert (K : keeps (fun tb => stored_conversation x y tb = Some row)
                      (bind (_get_or_create_conversation_id a b)
                            (fun conversation_id => ret (Some conversation_id)))).
    { apply keeps_bind; [apply keeps_stored_resolve | intros cid; apply keeps_ret]. }
    apply (keeps_try_except _ _ _ _ K w res w' H HP).
Qed.

Lemma stored_identity_is_never_changed_witness :
  stored_conversation 1 2 (tables (snd (create_message 3 1 [104] acquainted_world)))
  = Some (ConversationByUsers.mk 1 2 500)
  /\ stored_conversation 1 2 (tables (snd (create_or_get_conversation 2 1 acquainted_world)))
     = Some (ConversationByUsers.mk 1 2 500).
Proof.
  assert (S : stored_conversation 1 2 (tables acquainted_world)
              = Some (ConversationByUsers.mk 1 2 500)) by reflexivity.
  destruct (stored_identity_is_never_changed 1 2 _ acquainted_world S) as (H1 & H2).
  split.
  - apply (H1 3 1 [104] (fst (create_message 3 1 [104] acquainted_world))).
    apply surjective_pairing.
  - apply (H2 2 1 (fst (create_or_get_conversation 2 1 acquainted_world))).
    apply surjective_pairing.
Defined.

Lemma index_ok_upsert (row : ConversationsByUser.row) (tb : Tables) :
  index_row_ok row -> index_ok tb ->
  index_ok (snd (run (InsertConversationByUser row) tb)).
Proof.
  unfold index_ok. simpl. intros Hrow Htb. constructor; [exact Hrow |].
  apply Forall_forall. intros x Hx. apply filter_In in Hx. destruct Hx as (Hx & _).
  rewrite Forall_forall in Htb. apply Htb, Hx.
Qed.

Lemma keeps_index_append_steps (s r : Z) (c : str) :
  s <> r -> keeps index_ok (append_steps s r c).
Proof.
  intros Hne. unfold append_steps.
  assert (Hlen : (List.length (slice_to 200 c) <= 200)%nat)
    by (unfold slice_to; rewrite length_firstn; lia).
  apply keeps_bind.
  { intros w res w' H HP. apply resolve_effect in H. destruct H as (_ & E & _).
    unfold index_ok. rewrite E. exact HP. }
  intros cid.
  apply keeps_bind; [apply keeps_quiet, quiet_utcnow |]. intros now.
  apply keeps_bind; [apply keeps_quiet, quiet_uuid_from_time |]. intros t.
  apply keeps_bind; [apply keeps_quiet, quiet_uuid4 |]. intros mid.
  apply keeps_bind; [apply keeps_execute; intros tb Htb; exact Htb |]. intros _.
  apply keeps_bind.
  { apply keeps_execute. intros tb. apply index_ok_upsert.
    unfold index_row_ok. simpl. auto. }
  intros _.
  apply keeps_bind.
  { apply keeps_execute. intros tb. apply index_ok_upsert.
    unfold index_row_ok. simpl. auto. }
  intros _. apply keeps_ret.
Qed.

(** X4. The index stays well formed.  If every index row names two distinct
    users, has one of them as last sender and a preview of at most 200
    characters, then this still holds after [create_message], whatever its
    arguments and its outcome, a fan-out that failed half-way included.  On
    such an index every summary returned by [get_user_conversations] names a
    second user different from the first and a preview of at most 200
    characters. *)
Theorem index_rows_stay_well_formed (w : World) :
  index_ok (tables w) ->
  (forall s r c res w',
      create_message s r c w = (res, w') -> index_ok (tables w'))
  /\ (forall u page_size paging_state convs next w',
        get_user_conversations u page_size paging_state w = (Return (convs, next), w') ->
        forall e,
          In e convs ->
          exists other preview,
            user2_id e = Some other /\ other <> user1_id e
            /\ last_message_content e = Some preview
            /\ (List.length preview <= 200)%nat).
Proof.
  intros HP. split.
  - intros s r c res w' H. rewrite create_message_unfold in H.
    destruct (Z.eq_dec s r) as [-> | Hne].
    + unfold try_except, append_steps in H.
      erewrite bind_raise in H by apply self_conversation_raises.
      unfold ret in H. inversion H; subst. exact HP.
    + apply (keeps_try_except _ _ _ _ (keeps_index_append_steps s r c Hne) w res w' H HP).
  - intros u page_size paging_state convs next w' H e Hin.
    unfold get_user_conversations in H.
    destruct (fate w) eqn:F.
    + rewrite read_fault in H by exact F. inversion H; subst. destruct Hin.
    + rewrite (read_ok _ (SelectConversationsByUser u page_size paging_state)
                       (fun results =>
                          (map (format u) (ResultSet.current_rows results),
                           ResultSet.paging_state results)))
        in H by exact F.
      inversion H; subst. simpl in Hin. apply in_map_iff in Hin.
      destruct Hin as (x & <- & Hin). apply In_page in Hin.
      apply filter_In in Hin. destruct Hin as (Hin & Hu). apply Z.eqb_eq in Hu.
      unfold index_ok in HP. rewrite Forall_forall in HP.
      destruct (HP x Hin) as (Hdiff & _ & Hlen).
      exists (ConversationsByUser.other_user_id x),
             (ConversationsByUser.last_message_content x).
      simpl. unfold get. repeat split; [congruence | exact Hlen].
Qed.

Lemma index_rows_stay_well_formed_witness :
  index_ok (tables (snd (create_message 1 2 long_text faulty_world)))
  /\ index_ok (tables (snd (create_message 1 2 long_text fresh_world))).
Proof.
  assert (H0 : index_ok (tables fresh_world)) by constructor.
  assert (H1 : index_ok (tables faulty_world)) by constructor.
  split.
  - apply (proj1 (index_rows_stay_well_formed faulty_world H1) 1 2 long_text
                 (fst (create_message 1 2 long_text faulty_world))).
    apply surjective_pairing.
  - apply (proj1 (index_rows_stay_well_formed fresh_world H0) 1 2 long_text
                 (fst (create_message 1 2 long_text fresh_world))).
    apply surjective_pairing.
Defined.

(** ** What an append touches *)

Lemma timeuuid_eqb_eq (x y : TimeUUID) : timeuuid_eqb x y = true -> x = y.
Proof.
  unfold timeuuid_eqb. intros H.
  apply andb_prop in H. destruct H as (H & Hn).
  apply andb_prop in H. destruct H as (Ht & Hc).
  apply Z.eqb_eq in Ht. apply Z.eqb_eq in Hc. apply Z.eqb_eq in Hn.
  destruct x, y; simpl in *; congruence.
Qed.

Lemma two_keys_differ (a1 a2 b1 b2 : Z) :
  ~ (a1 = a2 /\ b1 = b2) -> (a1 =? a2) && (b1 =? b2) = false.
Proof.
  intros H. destruct (Z.eqb_spec a1 a2); destruct (Z.eqb_spec b1 b2); simpl; tauto.
Qed.

(** X5. A successful [create_message] touches only its own rows.  The index
    rows of every other user, and of the two participants for every other
    conversation, are as before; so are the rows of the log at every other
    key [(conversation_id, message_time)], the earlier messages of this
    conversation among them; and so is the identifier of every other pair of
    users. *)
Theorem append_touches_only_its_own_rows
  (s r : Z) (c : str) (w w' : World) (cid : UUID) (t : TimeUUID) (mid : UUID) :
  create_message s r c w = (Return (Some cid, Some t, Some mid), w') ->
  (forall u cid',
      ~ ((u = s \/ u = r) /\ cid' = cid) ->
      index_entries u cid' (tables w') = index_entries u cid' (tables w))
  /\ (forall cid' t',
        ~ (cid' = cid /\ t' = t) ->
        message_rows cid' t' (tables w') = message_rows cid' t' (tables w))
  /\ (forall x y,
        ~ (x = Z.min s r /\ y = Z.max s r) ->
        stored_conversation x y (tables w') = stored_conversation x y (tables w)).
Proof.
  intros H. apply create_message_success in H.
  destruct H as (w1 & Hres & T & _).
  apply resolve_effect in Hres. destruct Hres as (Em & Ei & Ec).
  split; [| split].
  - intros u cid' Hu. unfold index_entries. rewrite T. unfold fanned_out.
    cbn [conversations_by_user]. rewrite Ei.
    assert (Hs : (s =? u) && (cid =? cid') = false)
      by (apply two_keys_differ; intros (-> & ->); tauto).
    assert (Hr : (r =? u) && (cid =? cid') = false)
      by (apply two_keys_differ; intros (-> & ->); tauto).
    rewrite !filter_upsert_other; try reflexivity; simpl; try assumption.
    + intros x Hx. apply andb_prop in Hx. destruct Hx as (Hxu & Hxc).
      apply Z.eqb_eq in Hxu. apply Z.eqb_eq in Hxc. unfold same_index_key. simpl.
      rewrite Hxu, Hxc, (Z.eqb_sym u s), (Z.eqb_sym cid' cid). exact Hs.
    + intros x Hx. apply andb_prop in Hx. destruct Hx as (Hxu & Hxc).
      apply Z.eqb_eq in Hxu. apply Z.eqb_eq in Hxc. unfold same_index_key. simpl.
      rewrite Hxu, Hxc, (Z.eqb_sym u r), (Z.eqb_sym cid' cid). exact Hr.
  - intros cid' t' Hk. unfold message_rows. rewrite T. unfold fanned_out.
    cbn [messages_by_conversation]. rewrite Em.
    assert (Hd : forall t0, (cid =? cid') && timeuuid_eqb t0 t' = true -> t0 <> t).
    { intros t0 Hb ->. apply andb_prop in Hb. destruct Hb as (Hc & Ht).
      apply Z.eqb_eq in Hc. apply timeuuid_eqb_eq in Ht. auto. }
    rewrite filter_upsert_other; [reflexivity | |].
    + simpl. destruct ((cid =? cid') && timeuuid_eqb t t') eqn:B; [| reflexivity].
      exfalso. apply (Hd t B). reflexivity.
    + intros x Hx. unfold same_message_key. simpl.
      apply andb_prop in Hx. destruct Hx as (Hc & Ht). apply Z.eqb_eq in Hc.
      destruct ((MessagesByConversation.conversation_id x =? cid)
                && timeuuid_eqb (MessagesByConversation.message_time x) t) eqn:B;
        [| reflexivity].
      exfalso. apply andb_prop in B. destruct B as (Bc & Bt).
      apply Z.eqb_eq in Bc. apply timeuuid_eqb_eq in Bt. apply timeuuid_eqb_eq in Ht.
      apply Hk. split; congruence.
  - intros x y Hxy. rewrite T, stored_fanned_out. unfold stored_conversation.
    destruct Ec as [-> | (_ & _ & new & _ & ->)]; [reflexivity |].
    assert (Hd : (Z.min s r =? x) && (Z.max s r =? y) = false)
      by (apply two_keys_differ; intros (<- & <-); tauto).
    rewrite filter_upsert_other; [reflexivity | exact Hd |].
    intros z Hz. apply andb_prop in Hz. destruct Hz as (Ea & Eb).
    apply Z.eqb_eq in Ea. apply Z.eqb_eq in Eb. unfold same_pair. simpl.
    rewrite Ea, Eb, (Z.eqb_sym x), (Z.eqb_sym y). exact Hd.
Qed.

Lemma append_touches_only_its_own_rows_witness :
  exists w1 w',
    create_message 1 2 [97] fresh_world
    = (Return (Some 11, Some (mkTimeUUID 122192928000010000 22 33), Some 44), w1)
    /\ create_message 2 1 [98] w1
       = (Return (Some 11, Some (mkTimeUUID 122192928000020000 55 66), Some 77), w')
    /\ message_rows 11 (mkTimeUUID 122192928000010000 22 33) (tables w')
       = message_rows 11 (mkTimeUUID 122192928000010000 22 33) (tables w1).
Proof.
  exists (snd (create_message 1 2 [97] fresh_world)).
  exists (snd (create_message 2 1 [98] (snd (create_message 1 2 [97] fresh_world)))).
  assert (E2 : create_message 2 1 [98] (snd (create_message 1 2 [97] fresh_world))
               = (Return (Some 11, Some (mkTimeUUID 122192928000020000 55 66), Some 77),
                  snd (create_message 2 1 [98]
                                      (snd (create_message 1 2 [97] fresh_world)))))
    by (vm_compute; reflexivity).
  split; [vm_compute; reflexivity |]. split; [exact E2 |].
  apply (proj1 (proj2 (append_touches_only_its_own_rows _ _ _ _ _ _ _ _ E2))).
  intros (_ & Ht). discriminate Ht.
Defined.

(** X6. A fan-out that fails is not rolled back.  When identity resolution
    and the insert into the log have gone through and the write of the
    sender's index row as well, but the write of the receiver's index row
    raises, [create_message] returns [(None, None, None)] and yet the message
    is in the log and the sender's index shows it, while the receiver's
    index is as it was. *)
Theorem failed_fan_out_is_not_rolled_back
  (s r : Z) (c : str) (w w1 : World) (cid : UUID) (rest : list bool) :
  _get_or_create_conversation_id s r w = (Return cid, w1) ->
  faults w1 = false :: false :: true :: rest ->
  exists t mid w',
    create_message s r c w = (Return (None, None, None), w')
    /\ message_rows cid t (tables w')
       = [MessagesByConversation.mk cid t mid s r c]
    /\ index_entries s cid (tables w')
       = [ConversationsByUser.mk s t cid r s (firstn 200 c)]
    /\ index_entries r cid (tables w') = index_entries r cid (tables w1)
    /\ faults w' = rest.
Proof.
  intros Hres Hf.
  pose proof (resolve_stores _ _ _ _ _ Hres) as (Hne & _).
  destruct (quiet_utcnow w1) as (now & w2 & E2 & T2 & F2 & _).
  destruct (quiet_uuid_from_time now w2) as (t & w3 & E3 & T3 & F3 & _).
  destruct (quiet_uuid4 w3) as (mid & w4 & E4 & T4 & F4 & _).
  assert (F : faults w4 = false :: false :: true :: rest) by congruence.
  assert (T : tables w4 = tables w1) by congruence.
  exists t, mid. eexists.
  rewrite create_message_unfold. unfold try_except, append_steps.
  erewrite bind_run by exact Hres.
  erewrite bind_run by exact E2.
  erewrite bind_run by exact E3.
  erewrite bind_run by exact E4.
  erewrite bind_run by (apply execute_ok; unfold fate; rewrite F; reflexivity).
  erewrite bind_run
    by (apply execute_ok; unfold fate; simpl; rewrite F; reflexivity).
  erewrite bind_raise
    by (apply execute_fault; unfold fate; simpl; rewrite F; reflexivity).
  split; [reflexivity |].
  unfold message_rows, index_entries. cbn [tables with_tables executed run snd
                                            messages_by_conversation conversations_by_user].
  rewrite T.
  assert (Hsr : (s =? r) = false) by (apply Z.eqb_neq; exact Hne).
  repeat split; [| | | simpl; rewrite F; reflexivity].
  - apply filter_upsert_same; simpl; [reflexivity |].
    rewrite Z.eqb_refl, timeuuid_eqb_refl. reflexivity.
  - apply filter_upsert_same; simpl; [reflexivity |].
    rewrite !Z.eqb_refl. reflexivity.
  - apply filter_upsert_other.
    + simpl. rewrite Hsr. reflexivity.
    + intros x Hx. unfold same_index_key. simpl.
      apply andb_prop in Hx. destruct Hx as (Hu & _). apply Z.eqb_eq in Hu.
      rewrite Hu, (Z.eqb_sym r s), Hsr. reflexivity.
Qed.

Lemma failed_fan_out_is_not_rolled_back_witness :
  exists t mid w',
    create_message 1 2 [104; 105] half_way_world = (Return (None, None, None), w')
    /\ message_rows 500 t (tables w') = [MessagesByConversation.mk 500 t mid 1 2 [104; 105]]
    /\ index_entries 2 500 (tables w') = [].
Proof.
  assert (Hres : _get_or_create_conversation_id 1 2 half_way_world
                 = (Return 500, snd (_get_or_create_conversation_id 1 2 half_way_world)))
    by (vm_compute; reflexivity).
  assert (Hf : faults (snd (_get_or_create_conversation_id 1 2 half_way_world))
               = [false; false; true]) by (vm_compute; reflexivity).
  destruct (failed_fan_out_is_not_rolled_back 1 2 [104; 105] half_way_world _ 500 [] Hres Hf)
    as (t & mid & w' & E & Hm & _ & Hr & _).
  exists t, mid, w'. split; [exact E |]. split; [exact Hm |].
  rewrite Hr. vm_compute. reflexivity.
Defined.

(** ** More on the read paths *)

Lemma page_whole (A : Type) (fetch_size : Z) (l : list A) :
  Z.of_nat (List.length l) <= fetch_size ->
  page fetch_size None l = ResultSet.mk l None.
Proof.
  intros H. unfold page. simpl.
  destruct (Z.leb_spec fetch_size 0) as [_ | Hpos]; [reflexivity |].
  assert (Hn : (List.length l <= Z.to_nat fetch_size)%nat) by lia.
  rewrite firstn_all2 by exact Hn.
  destruct (Nat.ltb_spec (Z.to_nat fetch_size) (List.length l)); [lia | reflexivity].
Qed.

Lemma page_length (A : Type) (fetch_size : Z) (state : option nat) (l : list A) :
  0 < fetch_size ->
  Z.of_nat (List.length (ResultSet.current_rows (page fetch_size state l))) <= fetch_size.
Proof.
  intros H. unfold page.
  destruct (Z.leb_spec fetch_size 0) as [Hle | _]; [lia |].
  simpl. rewrite length_firstn. lia.
Qed.

(** The world after a read: the statement was handed over, the tables are
    the ones a SELECT leaves. *)
Lemma read_effect (A : Type) (s : Statement) (f : ResultOf s -> list A * option nat)
  (w w' : World) (res : outcome (list A * option nat)) :
  try_except (bind (session_execute s) (fun rs => ret (f rs))) (fun _ => ret ([], None)) w
  = (res, w') ->
  trace w' = trace w ++ [s]
  /\ (tables w' = tables w \/ tables w' = snd (run s (tables w))).
Proof.
  destruct (fate w) eqn:F.
  - rewrite read_fault by exact F. intros H. inversion H; subst. simpl. auto.
  - rewrite read_ok by exact F. intros H. inversion H; subst. simpl. auto.
Qed.

(** X7. The reads only read.  Whatever their outcome,
    [get_conversation_messages], [get_messages_before_timestamp] and
    [get_user_conversations] leave the three tables as they were.  The first
    and the third hand one statement to the session, their SELECT; the second
    does so with the key it derived, and when the derivation raises
    [OverflowError] it hands nothing over and leaves the world as it is.
    [get_conversation] returns [None] without touching the session at all. *)
Theorem reads_leave_the_store_alone (w : World) :
  (forall conversation_id page_size paging_state res w',
      get_conversation_messages conversation_id page_size paging_state w = (res, w') ->
      tables w' = tables w
      /\ trace w' = trace w ++ [SelectMessages conversation_id page_size paging_state])
  /\ (forall conversation_id before_timestamp page_size paging_state res w',
        get_messages_before_timestamp conversation_id before_timestamp
                                      page_size paging_state w = (res, w') ->
        tables w' = tables w
        /\ ((exists before_timeuuid w0,
                uuid_from_time before_timestamp w = (Return before_timeuuid, w0)
                /\ trace w' = trace w ++ [SelectMessagesBefore conversation_id
                                                               before_timeuuid
                                                               page_size paging_state])
            \/ (uuid_from_time before_timestamp w = (Raise OverflowError, w)
                /\ res = Raise OverflowError /\ w' = w)))
  /\ (forall user_id page_size paging_state res w',
        get_user_conversations user_id page_size paging_state w = (res, w') ->
        tables w' = tables w
        /\ trace w' = trace w ++ [SelectConversationsByUser user_id page_size paging_state])
  /\ (forall conversation_id, get_conversation conversation_id w = (Return None, w)).
Proof.
  split; [| split; [| split]].
  - intros cid ps pg res w' H. unfold get_conversation_messages in H.
    apply (read_effect _ (SelectMessages cid ps pg)
                       (fun results =>
                          (map with_created_at (ResultSet.current_rows results),
                           ResultSet.paging_state results))) in H.
    destruct H as (R & [T | T]); split; assumption.
  - intros cid ts ps pg res w' H.
    destruct (uuid_from_time_cases ts w) as [(before & w0 & E & T0 & _ & R0) | (_ & E)].
    + rewrite (before_read_unfold _ _ _ _ _ _ _ E) in H.
      apply (read_effect _ (SelectMessagesBefore cid before ps pg)
                         (fun results =>
                            (map with_created_at (ResultSet.current_rows results),
                             ResultSet.paging_state results))) in H.
      destruct H as (R & T). split.
      * destruct T as [T | T]; rewrite T; exact T0.
      * left. exists before, w0. split; [exact E |]. rewrite R, R0. reflexivity.
    + unfold get_messages_before_timestamp in H.
      erewrite bind_raise in H by exact E. inversion H; subst.
      split; [reflexivity |]. right. auto.
  - intros u ps pg res w' H. unfold get_user_conversations in H.
    apply (read_effect _ (SelectConversationsByUser u ps pg)
                       (fun results =>
                          (map (format u) (ResultSet.current_rows results),
                           ResultSet.paging_state results))) in H.
    destruct H as (R & [T | T]); split; assumption.
  - intros cid. reflexivity.
Qed.

Lemma reads_leave_the_store_alone_witness :
  tables (snd (get_conversation_messages 11 2 None three_messages)) = tables three_messages
  /\ tables (snd (get_messages_before_timestamp 11 before_year_one 20 None three_messages))
     = tables three_messages
  /\ tables (snd (get_user_conversations 1 20 None failing_read_world))
     = tables failing_read_world.
Proof.
  split; [| split].
  - apply (proj1 (reads_leave_the_store_alone three_messages) 11 2 None
                 (fst (get_conversation_messages 11 2 None three_messages))).
    apply surjective_pairing.
  - apply (proj1 (proj2 (reads_leave_the_store_alone three_messages))
                 11 before_year_one 20 None
                 (fst (get_messages_before_timestamp 11 before_year_one 20 None
                                                     three_messages))).
    apply surjective_pairing.
  - apply (proj1 (proj2 (proj2 (reads_leave_the_store_alone failing_read_world))) 1 20 None
                 (fst (get_user_conversations 1 20 None failing_read_world))).
    apply surjective_pairing.
Defined.

(** X8. What [get_conversation_messages] returns.  Every message of the page
    is a stored row of the conversation asked for; its [id] is the row's
    [message_id] and its [created_at] is built from the 60-bit timestamp of
    the row's [message_time] divided by [1e9], never null.  For a positive
    [page_size] the page holds at most [page_size] messages. *)
Theorem listed_messages_are_stored
  (conversation_id : UUID) (page_size : Z) (paging_state : option nat)
  (w w' : World) (messages : list message) (next_paging_state : option nat) :
  get_conversation_messages conversation_id page_size paging_state w
  = (Return (messages, next_paging_state), w') ->
  (forall msg,
      In msg messages ->
      In (columns msg) (messages_by_conversation (tables w))
      /\ MessagesByConversation.conversation_id (columns msg) = conversation_id
      /\ MessageModel.id msg = Some (MessagesByConversation.message_id (columns msg))
      /\ created_at msg
         = Some (UtcFromTimestamp
                   (tu_time (MessagesByConversation.message_time (columns msg)))
                   1000000000))
  /\ (0 < page_size -> Z.of_nat (List.length messages) <= page_size).
Proof.
  unfold get_conversation_messages. destruct (fate w) eqn:F.
  - rewrite read_fault by exact F. intros H. inversion H; subst.
    split; [intros msg [] | simpl; lia].
  - rewrite (read_ok _ (SelectMessages conversation_id page_size paging_state)
                     (fun results =>
                        (map with_created_at (ResultSet.current_rows results),
                         ResultSet.paging_state results))) by exact F.
    intros H. inversion H; subst. simpl. split.
    + intros msg Hin. apply in_map_iff in Hin. destruct Hin as (row & <- & Hin).
      apply In_page in Hin. apply filter_In in Hin. destruct Hin as (Hin & Hc).
      apply Z.eqb_eq in Hc. simpl. auto.
    + intros Hpos. rewrite length_map. apply page_length, Hpos.
Qed.

Lemma listed_messages_are_stored_witness :
  exists messages next,
    fst (get_conversation_messages 11 2 None three_messages) = Return (messages, next)
    /\ Z.of_nat (List.length messages) <= 2.
Proof.
  do 2 eexists.
  refine ((fun E => conj (f_equal fst E)
                         (proj2 (listed_messages_are_stored 11 2 None three_messages
                                   _ _ _ E) _)) _).
  - lia.
  - vm_compute. reflexivity.
Defined.

(** X9. What [get_user_conversations] returns.  Every summary of the page
    is built from a stored index row of the user asked for: [user1_id] is
    that user, [id], [user2_id] and [last_message_content] are the row's
    [conversation_id], [other_user_id] and [last_message_content], and
    [last_message_at] comes from the row's [last_message_time]; the stored
    [last_message_sender_id] is not part of the summary.  For a positive
    [page_size] the page holds at most [page_size] summaries. *)
Theorem listed_conversations_are_stored
  (user_id page_size : Z) (paging_state : option nat)
  (w w' : World) (convs : list conversation) (next_paging_state : option nat) :
  get_user_conversations user_id page_size paging_state w
  = (Return (convs, next_paging_state), w') ->
  (forall e,
      In e convs ->
      exists row,
        In row (conversations_by_user (tables w))
        /\ ConversationsByUser.user_id row = user_id
        /\ e = {| id := Some (ConversationsByUser.conversation_id row);
                  user1_id := user_id;
                  user2_id := Some (ConversationsByUser.other_user_id row);
                  last_message_at :=
                    Some (UtcFromTimestamp
                            (tu_time (ConversationsByUser.last_message_time row))
                            1000000000);
                  last_message_content :=
                    Some (ConversationsByUser.last_message_content row) |})
  /\ (0 < page_size -> Z.of_nat (List.length convs) <= page_size).
Proof.
  unfold get_user_conversations. destruct (fate w) eqn:F.
  - rewrite read_fault by exact F. intros H. inversion H; subst.
    split; [intros e [] | simpl; lia].
  - rewrite (read_ok _ (SelectConversationsByUser user_id page_size paging_state)
                     (fun results =>
                        (map (format user_id) (ResultSet.current_rows results),
                         ResultSet.paging_state results))) by exact F.
    intros H. inversion H; subst. simpl. split.
    + intros e Hin. apply in_map_iff in Hin. destruct Hin as (row & <- & Hin).
      apply In_page in Hin. apply filter_In in Hin. destruct Hin as (Hin & Hu).
      apply Z.eqb_eq in Hu. exists row. auto.
    + intros Hpos. rewrite length_map. apply page_length, Hpos.
Qed.

Lemma listed_conversations_are_stored_witness :
  exists w1 convs next,
    fst (get_user_conversations 2 1 None w1) = Return (convs, next)
    /\ Z.of_nat (List.length convs) <= 1.
Proof.
  exists (snd (create_message 1 2 [104] fresh_world)). do 2 eexists.
  refine ((fun E => conj (f_equal fst E)
                         (proj2 (listed_conversations_are_stored 2 1 None
                                   (snd (create_message 1 2 [104] fresh_world))
                                   _ _ _ E) _)) _).
  - lia.
  - vm_compute. reflexivity.
Defined.

(** ** Appends as the reads show them *)

(** X10. An appended message can be read back.  After a successful
    [create_message], a first page of [get_conversation_messages] that is
    large enough for the conversation and whose SELECT does not fail holds
    the message: its row with the full content, the returned [message_id] as
    [id], and a [created_at] built from the returned [message_time]; the
    cursor is null. *)
Theorem appended_message_is_listed
  (s r : Z) (c : str) (w w' : World) (cid : UUID) (t : TimeUUID) (mid : UUID)
  (page_size : Z) :
  create_message s r c w = (Return (Some cid, Some t, Some mid), w') ->
  fate w' = false ->
  Z.of_nat (List.length (filter (fun x => MessagesByConversation.conversation_id x =? cid)
                                (messages_by_conversation (tables w'))))
  <= page_size ->
  exists messages w'',
    get_conversation_messages cid page_size None w' = (Return (messages, None), w'')
    /\ In {| columns := MessagesByConversation.mk cid t mid s r c;
             created_at := Some (UtcFromTimestamp (tu_time t) 1000000000);
             MessageModel.id := Some mid |}
          messages.
Proof.
  intros H F Hsize. apply create_message_success in H.
  destruct H as (w1 & _ & T & _).
  unfold get_conversation_messages.
  rewrite (read_ok _ (SelectMessages cid page_size None)
                   (fun results =>
                      (map with_created_at (ResultSet.current_rows results),
                       ResultSet.paging_state results))) by exact F.
  cbn [run fst]. rewrite page_whole by exact Hsize.
  do 2 eexists. split; [reflexivity |].
  cbn [ResultSet.current_rows].
  apply (in_map with_created_at _ (MessagesByConversation.mk cid t mid s r c)).
  apply filter_In. split.
  - rewrite T. left. reflexivity.
  - simpl. apply Z.eqb_refl.
Qed.

Lemma appended_message_is_listed_witness :
  exists w' messages w'',
    get_conversation_messages 11 20 None w' = (Return (messages, None), w'')
    /\ In {| columns := MessagesByConversation.mk
                          11 (mkTimeUUID 122192928000010000 22 33) 44 2 1 long_text;
             created_at := Some (UtcFromTimestamp 122192928000010000 1000000000);
             MessageModel.id := Some 44 |}
          messages.
Proof.
  exists (snd (create_message 2 1 long_text fresh_world)).
  apply (appended_message_is_listed 2 1 long_text fresh_world _ 11
           (mkTimeUUID 122192928000010000 22 33) 44 20).
  - vm_compute. reflexivity.
  - reflexivity.
  - vm_compute. discriminate.
Defined.

(** X11. The fan-out as the two participants see it.  After a successful
    [create_message], a first page of [get_user_conversations], for the
    sender and for the receiver alike, that is large enough for the user's
    index and whose SELECT does not fail holds the summary of the
    conversation: the other participant as [user2_id], and for both users
    the same [last_message_at] and the same preview [content[:200]]. *)
Theorem appended_message_shows_in_both_listings
  (s r : Z) (c : str) (w w' : World) (cid : UUID) (t : TimeUUID) (mid : UUID)
  (u page_size : Z) :
  create_message s r c w = (Return (Some cid, Some t, Some mid), w') ->
  u = s \/ u = r ->
  fate w' = false ->
  Z.of_nat (List.length (filter (fun x => ConversationsByUser.user_id x =? u)
                                (conversations_by_user (tables w'))))
  <= page_size ->
  exists convs w'',
    get_user_conversations u page_size None w' = (Return (convs, None), w'')
    /\ In {| id := Some cid;
             user1_id := u;
             user2_id := Some (if u =? s then r else s);
             last_message_at := Some (UtcFromTimestamp (tu_time t) 1000000000);
             last_message_content := Some (firstn 200 c) |}
          convs.
Proof.
  intros H Hu F Hsize.
  pose proof (create_message_success _ _ _ _ _ _ _ _ H) as (w1 & Hres & T & _).
  pose proof (resolve_stores _ _ _ _ _ Hres) as (Hne & _).
  destruct (fanned_out_rows cid t mid s r c (tables w1) Hne) as (Hs & Hr & _).
  rewrite <- T in Hs, Hr.
  assert (Hrow : In (ConversationsByUser.mk u t cid (if u =? s then r else s) s
                                            (firstn 200 c))
                    (index_entries u cid (tables w'))).
  { destruct Hu as [-> | ->].
    - rewrite Z.eqb_refl, Hs. left. reflexivity.
    - assert (E : (r =? s) = false) by (apply Z.eqb_neq; congruence).
      rewrite E, Hr. left. reflexivity. }
  unfold index_entries in Hrow. apply filter_In in Hrow. destruct Hrow as (Hin & Hk).
  unfold get_user_conversations.
  rewrite (read_ok _ (SelectConversationsByUser u page_size None)
                   (fun results =>
                      (map (format u) (ResultSet.current_rows results),
                       ResultSet.paging_state results))) by exact F.
  cbn [run fst]. rewrite page_whole by exact Hsize.
  do 2 eexists. split; [reflexivity |].
  cbn [ResultSet.current_rows].
  apply (in_map (format u) _ (ConversationsByUser.mk u t cid (if u =? s then r else s) s
                                                     (firstn 200 c))).
  apply filter_In. split; [exact Hin |]. simpl. apply Z.eqb_refl.
Qed.

Lemma appended_message_shows_in_both_listings_witness :
  exists w' convs1 convs2 w1 w2,
    get_user_conversations 1 20 None w' = (Return (convs1, None), w1)
    /\ get_user_conversations 2 20 None w' = (Return (convs2, None), w2)
    /\ In (mkConversation (Some 11) 1 (Some 2)
                          (Some (UtcFromTimestamp 122192928000010000 1000000000))
                          (Some (repeat 97 200))) convs1
    /\ In (mkConversation (Some 11) 2 (Some 1)
                          (Some (UtcFromTimestamp 122192928000010000 1000000000))
                          (Some (repeat 97 200))) convs2.
Proof.
  exists (snd (create_message 2 1 long_text fresh_world)).
  assert (E : create_message 2 1 long_text fresh_world
              = (Return (Some 11, Some (mkTimeUUID 122192928000010000 22 33), Some 44),
                 snd (create_message 2 1 long_text fresh_world)))
    by (vm_compute; reflexivity).
  assert (F : fate (snd (create_message 2 1 long_text fresh_world)) = false)
    by reflexivity.
  destruct (appended_message_shows_in_both_listings
              2 1 long_text fresh_world _ 11 _ 44 1 20 E (or_intror eq_refl) F)
    as (convs1 & w1 & E1 & H1); [vm_compute; discriminate |].
  destruct (appended_message_shows_in_both_listings
              2 1 long_text fresh_world _ 11 _ 44 2 20 E (or_introl eq_refl) F)
    as (convs2 & w2 & E2 & H2); [vm_compute; discriminate |].
  exists convs1, convs2, w1, w2. auto.
Defined.

(** ** The time key of an append and the bound of a read *)














(** ** Healthy stores and unknown keys *)

(** X13. On a healthy store nothing fails: every message of a sequence whose
    senders differ from their receivers is appended, each append returns its
    three values, and the session is as healthy afterwards. *)
Theorem healthy_store_appends_every_message (msgs : list (Z * Z * str)) (w : World) :
  faults w = [] ->
  Forall (fun m => fst (fst m) <> snd (fst m)) msgs ->
  exists results w',
    append_all msgs w = Some (results, w')
    /\ List.length results = List.length msgs
    /\ faults w' = [].
Proof.
  intros Hf Hall. revert w Hf.
  induction Hall as [| [[s r] c] rest Hne _ IH]; intros w Hf.
  - exists [], w. simpl. auto.
  - simpl in Hne.
    destruct (create_message_healthy s r c w Hne Hf) as (cid & t & mid & w1 & E & Hf1).
    destruct (IH w1 Hf1) as (results & w' & A & L & Hf').
    exists ((cid, t, mid) :: results), w'. simpl. rewrite E, A, L. auto.
Qed.

Lemma healthy_store_appends_every_message_witness :
  exists results w',
    append_all [(1, 2, [97]); (2, 1, [98]); (3, 1, [99])] fresh_world = Some (results, w')
    /\ List.length results = 3%nat.
Proof.
  assert (Hf : faults fresh_world = []) by reflexivity.
  assert (Hall : Forall (fun m : Z * Z * str => fst (fst m) <> snd (fst m))
                        [(1, 2, [97]); (2, 1, [98]); (3, 1, [99])]).
  { repeat constructor; simpl; lia. }
  destruct (healthy_store_appends_every_message _ fresh_world Hf Hall)
    as (results & w' & A & L & _).
  exists results, w'. split; [exact A | exact L].
Defined.




